(** * Water reminder bot: a shallow embedding of the Python sources

    The development follows the repository file by file:

    - [telegram_notifier.py] : [TelegramNotifier] (retry loop, HTTP error
      classification, exponential back-off);
    - [config.py]            : [Config.validate];
    - [scheduler.py]         : [WaterReminderScheduler];
    - [main.py]              : [WaterReminderApp.start].

    Python code runs in a world that it observes and changes: it issues HTTP
    requests, sleeps while the monotonic clock runs, writes log records and
    keeps the process-wide job registry of the [schedule] package.  Every
    method is therefore a computation in the monad [M], which threads the
    world and carries either a returned value or a raised exception. *)

From Stdlib Require Import ZArith List String Ascii Bool Lia PeanoNat DecimalString.
Import ListNotations.
Local Open Scope Z_scope.

(* ===================================================================== *)
(** ** Python values used by the program *)
(* ===================================================================== *)

#[local] Set Warnings "-register-all".

(** What [response.json()] decodes.  Numbers are integers here: the program
    only tests a number for truthiness, and a fractional number is truthy
    like any integer other than zero. *)
Inductive JSON : Type :=
| JNull
| JBool (b : bool)
| JNum (z : Z)
| JStr (s : string)
| JArr (items : list JSON)
| JObj (items : list (string * JSON)).

(** Python truthiness, as tested by [if result.get("ok"):]. *)
Definition truthy (v : JSON) : bool :=
  match v with
  | JNull => false
  | JBool b => b
  | JNum z => negb (z =? 0)
  | JStr s => negb (String.length s =? 0)%nat
  | JArr items => negb (Nat.eqb (List.length items) 0)
  | JObj items => negb (Nat.eqb (List.length items) 0)
  end.

(** Name of the Python type of a decoded value, as it appears in the
    message of an [AttributeError]. *)
Definition type_name (v : JSON) : string :=
  match v with
  | JNull => "NoneType"
  | JBool _ => "bool"
  | JNum _ => "int"
  | JStr _ => "str"
  | JArr _ => "list"
  | JObj _ => "dict"
  end.

(** The value under [key] in the items of a decoded object (the keys of a
    dict are distinct; the first binding is taken). *)
Fixpoint lookup (key : string) (items : list (string * JSON)) : option JSON :=
  match items with
  | [] => None
  | (k, v) :: rest => if String.eqb k key then Some v else lookup key rest
  end.

(** What [json.loads] can raise besides [JSONDecodeError]: a [ValueError]
    for an integer literal of more than 4300 digits, and a [RecursionError]
    for a document nested too deep. *)
Inductive LoadsError : Type :=
| IntegerTooLong (text : string)
| NestedTooDeep (text : string).

(** What [response.json()] meets in the body: a document that decodes to a
    value, text that is not JSON ([JSONDecodeError]), or a document on which
    [json.loads] raises another exception. *)
Inductive Decoding : Type :=
| Decodes (v : JSON)
| NotJSON
| LoadsFails (e : LoadsError).

(** A response of the HTTP server as the program reads it:
    [response.status_code], [response.headers.get("Retry-After")] and what
    [response.json()] meets in the body. *)
Record Response : Type := mkResponse {
  status_code : Z;
  retry_after_header : option string;
  body : Decoding
}.

(** Exceptions that occur in the program.  The first four are the classes
    of [requests.exceptions] that [send_message] names; [RequestException]
    stands for every other member of that family.  [OverflowError] and
    [OSError] are raised by [time.sleep], [RecursionError] by [json.loads].
    [ScheduleValueError] is the error of the [schedule] package. *)
Inductive Exn : Type :=
| Timeout (text : string)
| ConnectionError (text : string)
| HTTPError (text : string) (response : Response)
| RequestException (text : string)
| ValueError (text : string)
| AttributeError (text : string)
| OverflowError (text : string)
| OSError (text : string)
| RecursionError (text : string)
| ScheduleValueError (text : string).

Definition loads_exn (e : LoadsError) : Exn :=
  match e with
  | IntegerTooLong text => ValueError text
  | NestedTooDeep text => RecursionError text
  end.

(** What can go wrong with a request before any response is read: a
    timeout, a connection failure, or another error of the requests
    library. *)
Inductive NetworkError : Type :=
| TimedOut (text : string)
| ConnectionFailed (text : string)
| OtherRequestError (text : string).

Definition exn_of (f : NetworkError) : Exn :=
  match f with
  | TimedOut text => Timeout text
  | ConnectionFailed text => ConnectionError text
  | OtherRequestError text => RequestException text
  end.

(** What one [requests.post] call meets: the request fails below HTTP, or
    the server answers. *)
Inductive PostResult : Type :=
| Fails (f : NetworkError)
| Responds (r : Response).

(* ===================================================================== *)
(** ** The world and the monad of effects *)
(* ===================================================================== *)

Inductive Level : Type := INFO | WARNING | ERROR.

(** An f-string is the list of its literal and interpolated pieces. *)
Inductive Piece : Type :=
| Lit (s : string)
| Num (z : Z)
| Str (s : string)
| Val (v : JSON)
| Err (e : Exn).

Record Payload : Type := mkPayload {
  p_chat_id : string;
  p_text : string;
  p_parse_mode : string
}.

Inductive Event : Type :=
| Post (url : string) (json : Payload) (timeout : Z)
| Sleep (secs : Z)
| Log (level : Level) (msg : list Piece).

(** Modelled from the spec: the [schedule] package, which keeps the jobs, is
    not part of the sources.  A scheduled job has a time of day, a next fire
    instant, and the arguments bound to its delivery function when it was
    registered.  Instants and times of day are counted in seconds; a day
    has [86400] of them. *)
Record Job : Type := mkJob {
  at_time : Z;
  next_run : Z;
  job_message : string;
  job_time_str : string
}.

(** [net k] is what the [k]-th request of the process meets (counted from
    [0]); [trace] lists the events so far, oldest first; [jobs] is the
    registry of the [schedule] package; [monotonic k] is what the monotonic
    clock of the machine reads, in nanoseconds since boot, when the process
    calls [time.sleep] after [k] completed sleeps. *)
Record World : Type := mkWorld {
  net : nat -> PostResult;
  trace : list Event;
  jobs : list Job;
  monotonic : nat -> Z
}.

Definition is_post (e : Event) : bool :=
  match e with Post _ _ _ => true | _ => false end.

(** Number of requests issued in a trace. *)
Definition posts (tr : list Event) : nat :=
  List.length (List.filter is_post tr).

(** The sleeps of a trace, in order. *)
Fixpoint sleeps (tr : list Event) : list Z :=
  match tr with
  | [] => []
  | Sleep s :: rest => s :: sleeps rest
  | _ :: rest => sleeps rest
  end.

Definition emit (e : Event) (w : World) : World :=
  mkWorld (net w) (trace w ++ [e]) (jobs w) (monotonic w).

Definition set_jobs (js : list Job) (w : World) : World :=
  mkWorld (net w) (trace w) js (monotonic w).

(** What the monotonic clock reads at the next call of [time.sleep]. *)
Definition reading (w : World) : Z :=
  monotonic w (List.length (sleeps (trace w))).

Inductive Outcome (A : Type) : Type :=
| Return (a : A)
| Raise (e : Exn).
Arguments Return {A} a.
Arguments Raise {A} e.

Definition M (A : Type) : Type := World -> Outcome A * World.

Definition ret {A} (a : A) : M A := fun w => (Return a, w).

Definition raise {A} (e : Exn) : M A := fun w => (Raise e, w).

Definition bind {A B} (c : M A) (k : A -> M B) : M B :=
  fun w =>
    match c w with
    | (Return a, w') => k a w'
    | (Raise e, w') => (Raise e, w')
    end.

(** [try: c  except ...: h]: the handler [h] answers [None] for an
    exception that no [except] clause matches, which then propagates; an
    exception raised inside a handler propagates as well. *)
Definition try_except {A} (c : M A) (h : Exn -> option (M A)) : M A :=
  fun w =>
    match c w with
    | (Return a, w') => (Return a, w')
    | (Raise e, w') =>
        match h e with
        | Some handler => handler w'
        | None => (Raise e, w')
        end
    end.

Declare Scope py_scope.
Delimit Scope py_scope with py.
Notation "x <- c ;; k" := (bind c (fun x => k))
  (at level 61, c at next level, right associativity) : py_scope.
Notation "c ;; k" := (bind c (fun _ => k))
  (at level 61, right associativity) : py_scope.
Local Open Scope py_scope.

(** The least absolute value of an integer that [str] refuses to render:
    CPython converts no integer of more than 4300 decimal digits to a
    string, whatever its sign. *)
Definition UNPRINTABLE : Z := Eval vm_compute in 10 ^ 4300.

(** An f-string that interpolates such an integer cannot be built.  The
    integers of a decoded body are none of them, since [json.loads] refuses
    their literals for the same reason. *)
Definition unprintable (msg : list Piece) : bool :=
  existsb (fun piece =>
             match piece with
             | Num z => UNPRINTABLE <=? Z.abs z
             | _ => false
             end) msg.
Arguments UNPRINTABLE : simpl never.

(** [logger.info], [logger.warning], [logger.error], each called with an
    f-string: the message is built before the logger is called, so that a
    message that cannot be built raises and leaves no record. *)
Definition log (level : Level) (msg : list Piece) : M unit :=
  fun w =>
    if unprintable msg
    then (Raise (ValueError "Exceeds the limit (4300 digits) for integer string conversion; use sys.set_int_max_str_digits() to increase the limit"), w)
    else (Return tt, emit (Log level msg) w).

(** The longest sleep, in seconds, whose count of nanoseconds fits a signed
    64-bit integer, the largest such count, and the nanoseconds of a
    second. *)
Definition SLEEP_MAX : Z := 9223372036.
Definition PYTIME_MAX : Z := 9223372036854775807.
Definition NANOSECONDS : Z := 1000000000.

(** The exception, if any, with which [time.sleep(secs)] ends when the
    monotonic clock reads [clock], for an integer [secs], as CPython 3.11
    does it on Linux.  The length is converted to a signed 64-bit count of
    nanoseconds, which overflows beyond [SLEEP_MAX] seconds either way; a
    negative length is refused; the deadline is the reading of the clock
    plus the length, and a deadline beyond the 64-bit range makes
    [clock_nanosleep] fail with [EINVAL]. *)
Definition refused (clock secs : Z) : option Exn :=
  if (secs <? - SLEEP_MAX) || (SLEEP_MAX <? secs)
  then Some (OverflowError "timestamp too large to convert to C _PyTime_t")
  else if secs <? 0
  then Some (ValueError "sleep length must be non-negative")
  else if PYTIME_MAX <? clock + secs * NANOSECONDS
  then Some (OSError "[Errno 22] Invalid argument")
  else None.

(** [time.sleep(secs)] *)
Definition time_sleep (secs : Z) : M unit :=
  fun w =>
    match refused (reading w) secs with
    | Some e => (Raise e, w)
    | None => (Return tt, emit (Sleep secs) w)
    end.

(** [requests.post(url, json=payload, timeout=timeout)]: the request is
    issued, and the network decides what comes back. *)
Definition requests_post (url : string) (json : Payload) (timeout : Z)
  : M Response :=
  fun w =>
    let w' := emit (Post url json timeout) w in
    match net w (posts (trace w)) with
    | Fails f => (Raise (exn_of f), w')
    | Responds r => (Return r, w')
    end.

(** [response.raise_for_status()] of the requests library: an [HTTPError]
    for a client error (400..499) or a server error (500..599), nothing for
    any other status. *)
Definition is_error_status (s : Z) : bool := (400 <=? s) && (s <? 600).

Definition raise_for_status (r : Response) : M unit :=
  if is_error_status (status_code r)
  then raise (HTTPError "HTTP error status" r)
  else ret tt.

(** [response.json()]: a body that is not JSON raises the library's
    [JSONDecodeError], which is a [RequestException] (requests 2.27 and
    later); any other exception of [json.loads] is passed on as it is. *)
Definition response_json (r : Response) : M JSON :=
  match body r with
  | Decodes v => ret v
  | NotJSON => raise (RequestException "JSONDecodeError")
  | LoadsFails e => raise (loads_exn e)
  end.

(** [result.get(key, default)]: only a dict has a [get]. *)
Definition dict_get (result : JSON) (key : string) (default : JSON) : M JSON :=
  match result with
  | JObj items =>
      ret (match lookup key items with Some v => v | None => default end)
  | other =>
      raise (AttributeError
               ("'" ++ type_name other ++ "' object has no attribute 'get'")%string)
  end.

(* ===================================================================== *)
(** ** [int(text)] for a header value *)
(* ===================================================================== *)

(** Header values are Latin-1 text.  The white space [int] strips from both
    ends, by code point. *)
Definition is_space (c : ascii) : bool :=
  let n := nat_of_ascii c in
  ((9 <=? n) && (n <=? 13) || (n =? 32) || (n =? 133) || (n =? 160))%nat.

Definition digit_of (c : ascii) : option Z :=
  let n := nat_of_ascii c in
  if ((48 <=? n) && (n <=? 57))%nat then Some (Z.of_nat n - 48) else None.

Fixpoint chars (s : string) : list ascii :=
  match s with
  | EmptyString => []
  | String c rest => c :: chars rest
  end.

Fixpoint lstrip (cs : list ascii) : list ascii :=
  match cs with
  | c :: rest => if is_space c then lstrip rest else cs
  | [] => []
  end.

Definition strip (cs : list ascii) : list ascii :=
  rev (lstrip (rev (lstrip cs))).

(** Digits, with single underscores allowed between two digits.
    [after_digit] tells whether the previous character was a digit. *)
Fixpoint digits (acc : Z) (after_digit : bool) (cs : list ascii) : option Z :=
  match cs with
  | [] => if after_digit then Some acc else None
  | c :: rest =>
      match digit_of c with
      | Some d => digits (10 * acc + d) true rest
      | None =>
          if Ascii.eqb c "_"%char && after_digit
          then digits acc false rest
          else None
      end
  end.

(** [int] scans the run of digits and underscores that follows the sign.
    [run_ok] tells whether the run is well formed up to its end (no
    underscore first, last or doubled), [run_digits] counts its digits. *)
Fixpoint run_ok (after_digit : bool) (cs : list ascii) : bool :=
  match cs with
  | [] => after_digit
  | c :: rest =>
      match digit_of c with
      | Some _ => run_ok true rest
      | None =>
          if Ascii.eqb c "_"%char
          then after_digit && run_ok false rest
          else after_digit
      end
  end.

Fixpoint run_digits (cs : list ascii) : nat :=
  match cs with
  | [] => O
  | c :: rest =>
      match digit_of c with
      | Some _ => S (run_digits rest)
      | None => if Ascii.eqb c "_"%char then run_digits rest else O
      end
  end.

(** [sys.get_int_max_str_digits()], as the interpreter starts. *)
Definition MAX_STR_DIGITS : nat := 4300.

(** What [int] makes of a text: an integer, an invalid literal, or a run of
    more digits than the interpreter converts. *)
Inductive Literal : Type :=
| IsInteger (z : Z)
| Invalid
| TooLong (count : nat).

(** The part after the sign.  The length of the run is tested once the run
    is known to be well formed, and before what follows the run is
    looked at. *)
Definition unsigned (cs : list ascii) : Literal :=
  if negb (run_ok false cs) then Invalid
  else if (MAX_STR_DIGITS <? run_digits cs)%nat then TooLong (run_digits cs)
  else match digits 0 false cs with
       | Some z => IsInteger z
       | None => Invalid
       end.

Definition negate (l : Literal) : Literal :=
  match l with
  | IsInteger z => IsInteger (- z)
  | other => other
  end.

Definition int_literal (s : string) : Literal :=
  match strip (chars s) with
  | c :: rest =>
      if Ascii.eqb c "-"%char then negate (unsigned rest)
      else if Ascii.eqb c "+"%char then unsigned rest
      else unsigned (c :: rest)
  | [] => Invalid
  end.

Definition int_of_string (s : string) : option Z :=
  match int_literal s with
  | IsInteger z => Some z
  | _ => None
  end.

(** [repr(text)] for Latin-1 text: the quote is the apostrophe unless the
    text holds an apostrophe and no double quote; the backslash, the quote,
    tab, line feed and carriage return are escaped, and a character that is
    not printable is written [\xNN]. *)
Definition printable (c : ascii) : bool :=
  let n := nat_of_ascii c in
  ((32 <=? n) && (n <=? 126) || (161 <=? n) && negb (n =? 173))%nat.

Definition hex_digit (n : nat) : ascii :=
  ascii_of_nat (if (n <? 10)%nat then 48 + n else 87 + n).

Definition escaped (quote c : ascii) : list ascii :=
  if Ascii.eqb c "\"%char || Ascii.eqb c quote then ["\"%char; c]
  else if Ascii.eqb c "009"%char then ["\"%char; "t"%char]
  else if Ascii.eqb c "010"%char then ["\"%char; "n"%char]
  else if Ascii.eqb c "013"%char then ["\"%char; "r"%char]
  else if printable c then [c]
  else ["\"%char; "x"%char;
        hex_digit (nat_of_ascii c / 16); hex_digit (nat_of_ascii c mod 16)].

Definition repr (s : string) : list ascii :=
  let cs := chars s in
  let quote :=
    if existsb (Ascii.eqb "'"%char) cs && negb (existsb (Ascii.eqb "034"%char) cs)
    then "034"%char else "'"%char in
  quote :: flat_map (escaped quote) cs ++ [quote].

(** The value of [headers.get("Retry-After", DEFAULT_RETRY_AFTER)]: the
    header's text, or the integer default. *)
Inductive StrOrInt : Type :=
| IsStr (s : string)
| IsInt (z : Z).

(** [int(x)].  The message of an invalid literal quotes the first 200
    characters of [repr(x)]. *)
Definition py_int (x : StrOrInt) : M Z :=
  match x with
  | IsInt z => ret z
  | IsStr s =>
      match int_literal s with
      | IsInteger z => ret z
      | Invalid =>
          raise (ValueError
                   ("invalid literal for int() with base 10: "
                    ++ string_of_list_ascii (firstn 200 (repr s)))%string)
      | TooLong count =>
          raise (ValueError
                   ("Exceeds the limit (4300 digits) for integer string conversion: value has "
                    ++ NilEmpty.string_of_uint (Nat.to_uint count)
                    ++ " digits; use sys.set_int_max_str_digits() to increase the limit")%string)
      end
  end.

Definition piece_of (x : StrOrInt) : Piece :=
  match x with
  | IsStr s => Str s
  | IsInt z => Num z
  end.

(* ===================================================================== *)
(** ** telegram_notifier.py *)
(* ===================================================================== *)

Module TelegramNotifier.

Definition DEFAULT_TIMEOUT : Z := 10.
Definition DEFAULT_MAX_RETRIES : Z := 3.
Definition BASE_API_URL : string := "https://api.telegram.org/bot".
Definition PARSE_MODE : string := "HTML".

Definition STATUS_RATE_LIMITED : Z := 429.
Definition STATUS_UNAUTHORIZED : Z := 401.
Definition STATUS_BAD_REQUEST : Z := 400.

Definition DEFAULT_RETRY_AFTER : Z := 5.

Record t : Type := mk {
  bot_token : string;
  chat_id : string;
  api_url : string
}.

Definition __init__ (bot_token chat_id : string) : t :=
  mk bot_token chat_id (BASE_API_URL ++ bot_token ++ "/sendMessage")%string.

(** Message text is embedded as its UTF-8 encoding, so a character of the
    Python string is a lead byte followed by its continuation bytes. *)
Definition is_continuation (c : ascii) : bool :=
  let n := nat_of_ascii c in ((128 <=? n) && (n <? 192))%nat.

(** [len(message)] *)
Fixpoint len (s : string) : nat :=
  match s with
  | EmptyString => 0
  | String c rest => ((if is_continuation c then 0 else 1) + len rest)%nat
  end.

(** [message[:n]] *)
Fixpoint take (n : nat) (s : string) : string :=
  match s with
  | EmptyString => EmptyString
  | String c rest =>
      if is_continuation c then String c (take n rest)
      else match n with
           | O => EmptyString
           | S n' => String c (take n' rest)
           end
  end.

(** [message[:50] + "..." if len(message) > 50 else message] *)
Definition preview (message : string) : string :=
  if (50 <? len message)%nat
  then (take 50 message ++ "...")%string
  else message.

(** [_send_request] *)
Definition _send_request (self : t) (message : string) : M bool :=
  let payload := mkPayload (chat_id self) message PARSE_MODE in
  response <- requests_post (api_url self) payload DEFAULT_TIMEOUT ;;
  raise_for_status response ;;
  result <- response_json response ;;
  ok <- dict_get result "ok" JNull ;;
  if truthy ok then
    log INFO [Lit "Message sent successfully: "; Str (preview message)] ;;
    ret true
  else
    description <- dict_get result "description" (JStr "Unknown error") ;;
    log ERROR [Lit "Telegram API error: "; Val description] ;;
    ret false.

(** [_handle_http_error]: [error] is the [HTTPError] caught by the caller,
    [response] its [error.response]. *)
Definition _handle_http_error (self : t) (error : Exn) (response : Response)
    (attempt max_retries : Z) : M bool :=
  let status_code := status_code response in
  if status_code =? STATUS_RATE_LIMITED then
    let retry_after :=
      match retry_after_header response with
      | Some text => IsStr text
      | None => IsInt DEFAULT_RETRY_AFTER
      end in
    log WARNING [Lit "Rate limited. Waiting "; piece_of retry_after;
                 Lit " seconds..."] ;;
    secs <- py_int retry_after ;;
    time_sleep secs ;;
    ret true
  else if status_code =? STATUS_UNAUTHORIZED then
    log ERROR [Lit "Invalid bot token. Please check TELEGRAM_BOT_TOKEN."] ;;
    ret false
  else if status_code =? STATUS_BAD_REQUEST then
    log ERROR [Lit "Invalid chat ID or message format. Please check TELEGRAM_CHAT_ID."] ;;
    ret false
  else
    log ERROR [Lit "HTTP error: "; Err error] ;;
    ret (attempt <? max_retries - 1).

(** [_wait_before_retry] *)
Definition _wait_before_retry (self : t) (attempt max_retries : Z) : M unit :=
  if attempt <? max_retries - 1 then
    let wait_time := 2 ^ attempt in
    log INFO [Lit "Retrying in "; Num wait_time; Lit " seconds..."] ;;
    time_sleep wait_time
  else ret tt.

(** The [except] clauses of [send_message], in the order of the source.
    A clause answers [Some b] when it executes [return b] and [None] when
    control falls out of the [try] statement. *)
Definition handlers (self : t) (attempt max_retries : Z)
    (e : Exn) : option (M (option bool)) :=
  match e with
  | Timeout _ =>
      Some (log WARNING [Lit "Timeout on attempt "; Num (attempt + 1);
                         Lit "/"; Num max_retries] ;;
            ret None)
  | ConnectionError _ =>
      Some (log WARNING [Lit "Connection error on attempt ";
                         Num (attempt + 1); Lit "/"; Num max_retries] ;;
            ret None)
  | HTTPError _ response =>
      Some (should_continue <-
              _handle_http_error self e response attempt max_retries ;;
            if negb should_continue then ret (Some false) else ret None)
  | RequestException _ =>
      Some (log ERROR [Lit "Request error on attempt "; Num (attempt + 1);
                       Lit "/"; Num max_retries; Lit ": "; Err e] ;;
            ret None)
  | _ => None
  end.

(** One iteration of the [for] loop of [send_message].  The result is
    [Some b] when the iteration leaves the method with [return b], and
    [None] when it reaches its end and the loop goes on. *)
Definition iteration (self : t) (message : string) (max_retries attempt : Z)
  : M (option bool) :=
  returned <-
    try_except
      (success <- _send_request self message ;;
       if success then ret (Some true) else ret None)
      (handlers self attempt max_retries) ;;
  match returned with
  | Some b => ret (Some b)
  | None => _wait_before_retry self attempt max_retries ;; ret None
  end.

(** [for attempt in range(max_retries): ...], with [n] iterations left and
    [attempt] the next index, followed by the statements after the loop. *)
Fixpoint loop (self : t) (message : string) (max_retries : Z)
    (n : nat) (attempt : Z) : M bool :=
  match n with
  | O =>
      log ERROR [Lit "Failed to send message after "; Num max_retries;
                 Lit " attempts"] ;;
      ret false
  | S n' =>
      returned <- iteration self message max_retries attempt ;;
      match returned with
      | Some b => ret b
      | None => loop self message max_retries n' (attempt + 1)
      end
  end.

(** [send_message] *)
Definition send_message (self : t) (message : string) (max_retries : Z)
  : M bool :=
  loop self message max_retries (Z.to_nat max_retries) 0.

(** [test_connection] *)
Definition test_connection (self : t) : M bool :=
  send_message self "ðŸ§ª Test message - Water Reminder Bot is active!"
    DEFAULT_MAX_RETRIES.

End TelegramNotifier.


(* ===================================================================== *)
(** ** config.py *)
(* ===================================================================== *)

Module Config.

Definition ENV_BOT_TOKEN : string := "TELEGRAM_BOT_TOKEN".
Definition ENV_CHAT_ID : string := "TELEGRAM_CHAT_ID".

(** The class attributes, read from the environment when the module is
    loaded: [os.getenv] answers a string or [None]. *)
Record t : Type := mk {
  TELEGRAM_BOT_TOKEN : option string;
  TELEGRAM_CHAT_ID : option string
}.

(** [not x] for [x : str | None]. *)
Definition py_not (x : option string) : bool :=
  match x with
  | None => true
  | Some s => (String.length s =? 0)%nat
  end.

Definition newline : string := String (ascii_of_nat 10) EmptyString.

Definition not_set (name : string) : string :=
  (name ++ " not set. Please add it to your .env file.")%string.

(** [validate] *)
Definition validate (cls : t) : M unit :=
  let errors := [] in
  let errors :=
    if py_not (TELEGRAM_BOT_TOKEN cls)
    then errors ++ [not_set ENV_BOT_TOKEN] else errors in
  let errors :=
    if py_not (TELEGRAM_CHAT_ID cls)
    then errors ++ [not_set ENV_CHAT_ID] else errors in
  match errors with
  | _ :: _ => raise (ValueError (String.concat newline errors))
  | [] => log INFO [Lit "Configuration validated successfully"]
  end.

End Config.

(* ===================================================================== *)
(** ** The [schedule] package, as far as the program uses it *)
(* ===================================================================== *)

Module Schedule.

(** Seconds of a day. *)
Definition DAY : Z := 86400.

(** Modelled from the spec: the [schedule] package is not part of the
    sources.  A time of day has an hour and a minute, written [HH:MM]. *)
Definition parse_time (time_str : string) : option Z :=
  match chars time_str with
  | [h1; h2; sep; m1; m2] =>
      match digit_of h1, digit_of h2, digit_of m1, digit_of m2 with
      | Some a, Some b, Some c, Some d =>
          if Ascii.eqb sep ":"%char && (10 * a + b <? 24) && (10 * c + d <? 60)
          then Some ((10 * a + b) * 3600 + (10 * c + d) * 60)
          else None
      | _, _, _, _ => None
      end
  | _ => None
  end.

(** Modelled from the spec: the [schedule] package is not part of the
    sources.  The first fire instant of a job is today or tomorrow at its
    time of day, whichever is the soonest occurrence not yet passed. *)
Definition first_run (now at_time : Z) : Z :=
  let today := now / DAY * DAY + at_time in
  if today <? now then today + DAY else today.

(** Modelled from the spec: the [schedule] package is not part of the
    sources.  [schedule.every().day.at(time_str).do(job_func, message,
    time_str)] adds one daily job to the registry; [now] is the wall clock
    at that moment. *)
Definition every_day_at_do (now : Z) (time_str message : string) : M unit :=
  match parse_time time_str with
  | Some at_time =>
      fun w =>
        (Return tt,
         set_jobs
           (jobs w ++ [mkJob at_time (first_run now at_time) message time_str])
           w)
  | None => raise (ScheduleValueError "Invalid time format for a daily job")
  end.

(** Modelled from the spec: the [schedule] package is not part of the
    sources.  After it has fired, a job is due at the same time of day on
    the calendar day that follows the day of firing. *)
Definition advance (now : Z) (job : Job) : Job :=
  mkJob (at_time job) ((now / DAY + 1) * DAY + at_time job)
        (job_message job) (job_time_str job).

Fixpoint replace_nth (i : nat) (job : Job) (js : list Job) : list Job :=
  match js, i with
  | [], _ => []
  | _ :: rest, O => job :: rest
  | j :: rest, S i' => j :: replace_nth i' job rest
  end.

(** Modelled from the spec: the [schedule] package is not part of the
    sources.  The job at index [i] of the registry is rescheduled in
    place. *)
Definition reschedule (now : Z) (i : nat) (job : Job) : M unit :=
  fun w => (Return tt, set_jobs (replace_nth i (advance now job) (jobs w)) w).

(** Modelled from the spec: the [schedule] package is not part of the
    sources.  A due job fires: its delivery is invoked synchronously, then
    the job is rescheduled.  The delivery is [job_func] with the arguments
    bound when the job was registered. *)
Definition fire (job_func : string -> string -> M unit)
    (now : Z) (i : nat) (job : Job) : M unit :=
  job_func (job_message job) (job_time_str job) ;;
  reschedule now i job.

(** Modelled from the spec: the [schedule] package is not part of the
    sources.  One poll compares the wall clock [now] with the next-fire
    instant of every job and fires the jobs whose instant has passed. *)
Fixpoint poll (job_func : string -> string -> M unit)
    (now : Z) (i : nat) (js : list Job) : M unit :=
  match js with
  | [] => ret tt
  | job :: rest =>
      (if next_run job <=? now then fire job_func now i job else ret tt) ;;
      poll job_func now (S i) rest
  end.

(** [schedule.run_pending()] *)
Definition run_pending (job_func : string -> string -> M unit) (now : Z)
  : M unit :=
  fun w => poll job_func now 0 (jobs w) w.

(** Modelled from the spec: the [schedule] package is not part of the
    sources.  [schedule.next_run()] is the soonest next-fire instant across
    all jobs, and [None] when the registry is empty. *)
Fixpoint earliest (js : list Job) : option Z :=
  match js with
  | [] => None
  | j :: rest =>
      match earliest rest with
      | None => Some (next_run j)
      | Some t => Some (Z.min (next_run j) t)
      end
  end.

(** [schedule.next_run()] *)
Definition next_run : M (option Z) :=
  fun w => (Return (earliest (jobs w)), w).

(** A number below 100 in two decimal digits. *)
Definition two_digits (n : Z) : string :=
  String (ascii_of_nat (48 + Z.to_nat (n / 10)))
    (String (ascii_of_nat (48 + Z.to_nat (n mod 10))) EmptyString).

(** [instant.strftime('%H:%M')] *)
Definition strftime_HM (instant : Z) : string :=
  (two_digits (instant mod DAY / 3600) ++ ":"
   ++ two_digits (instant mod 3600 / 60))%string.

End Schedule.

(* ===================================================================== *)
(** ** scheduler.py *)
(* ===================================================================== *)

Module WaterReminderScheduler.

Definition REMINDER_MESSAGES : list (string * string) :=
  [ ("09:00", "Good morning! Time to drink water! 💧");
    ("12:00", "Lunch time reminder! Stay hydrated! 🌊");
    ("15:00", "Afternoon hydration break! 💦");
    ("18:00", "Evening water reminder! 🚰");
    ("21:00", "Last call for water today! Good night! 🌙") ]%string.

Record t : Type := mk {
  notifier : TelegramNotifier.t
}.

(** [_send_reminder] *)
Definition _send_reminder (self : t) (message time_str : string) : M unit :=
  log INFO [Lit "Sending reminder scheduled for "; Str time_str] ;;
  success <- TelegramNotifier.send_message (notifier self) message
               TelegramNotifier.DEFAULT_MAX_RETRIES ;;
  if success
  then log INFO [Lit "Reminder sent successfully at "; Str time_str]
  else log ERROR [Lit "Failed to send reminder at "; Str time_str].

(** [for time_str, message in self.REMINDER_MESSAGES.items(): ...]; [now] is
    the wall clock that the [schedule] package reads. *)
Fixpoint schedule_items (self : t) (now : Z) (items : list (string * string))
  : M unit :=
  match items with
  | [] => ret tt
  | (time_str, message) :: rest =>
      Schedule.every_day_at_do now time_str message ;;
      log INFO [Lit "Scheduled reminder at "; Str time_str] ;;
      schedule_items self now rest
  end.

(** [_setup_schedule] *)
Definition _setup_schedule (self : t) (now : Z) : M unit :=
  schedule_items self now REMINDER_MESSAGES.

(** [now] is the wall clock that the [schedule] package reads while the jobs
    are registered. *)
Definition __init__ (telegram_notifier : TelegramNotifier.t) (now : Z) : M t :=
  let self := mk telegram_notifier in
  _setup_schedule self now ;;
  ret self.

(** [run_pending]: the jobs of the registry were registered with
    [self._send_reminder] as their delivery. *)
Definition run_pending (self : t) (now : Z) : M unit :=
  Schedule.run_pending (_send_reminder self) now.

(** [get_next_reminder] *)
Definition get_next_reminder (self : t) : M string :=
  next_run <- Schedule.next_run ;;
  match next_run with
  | Some instant =>
      ret ("Next reminder at " ++ Schedule.strftime_HM instant)%string
  | None => ret "No reminders scheduled"%string
  end.

End WaterReminderScheduler.

(* ===================================================================== *)
(** ** main.py *)
(* ===================================================================== *)

Module WaterReminderApp.

(** [try: c  finally: final]: [final] runs however [c] ends, and the result
    of [c] stands unless [final] raises. *)
Definition try_finally {A} (c : M A) (final : M unit) : M A :=
  fun w =>
    let (res, w') := c w in
    match final w' with
    | (Return _, w'') => (res, w'')
    | (Raise e, w'') => (Raise e, w'')
    end.

(** The two class attributes of [Config] when both are strings. *)
Definition credentials (cls : Config.t) : option (string * string) :=
  match Config.TELEGRAM_BOT_TOKEN cls, Config.TELEGRAM_CHAT_ID cls with
  | Some bot_token, Some chat_id => Some (bot_token, chat_id)
  | _, _ => None
  end.

(** [_validate_configuration] *)
Definition _validate_configuration (cls : Config.t) : M unit :=
  log INFO [Lit "Loading configuration..."] ;;
  Config.validate cls.

(** [_initialize_notifier], with the two class attributes of [Config] that
    it passes to the constructor. *)
Definition _initialize_notifier (bot_token chat_id : string)
  : M (option TelegramNotifier.t) :=
  log INFO [Lit "Initializing Telegram notifier..."] ;;
  let notifier := TelegramNotifier.__init__ bot_token chat_id in
  log INFO [Lit "Testing Telegram connection..."] ;;
  connected <- TelegramNotifier.test_connection notifier ;;
  if connected then
    log INFO [Lit "Telegram connection test successful!"] ;;
    ret (Some notifier)
  else
    log ERROR [Lit "Failed to send test message to Telegram"] ;;
    log ERROR [Lit "Please check your bot token and chat ID"] ;;
    ret None.

(** [_initialize_scheduler]; [now] is the wall clock that the [schedule]
    package reads while the jobs are registered. *)
Definition _initialize_scheduler (notifier : TelegramNotifier.t) (now : Z)
  : M WaterReminderScheduler.t :=
  log INFO [Lit "Setting up reminder schedule..."] ;;
  scheduler <- WaterReminderScheduler.__init__ notifier now ;;
  description <- WaterReminderScheduler.get_next_reminder scheduler ;;
  log INFO [Str description] ;;
  ret scheduler.

(** The [except] clauses of [start]: [ValueError] first, then every other
    [Exception]. *)
Definition handlers (e : Exn) : option (M unit) :=
  match e with
  | ValueError _ =>
      Some (log ERROR [Lit "Configuration error: "; Err e] ;;
            log ERROR [Lit "Please check your .env file and try again"])
  | _ => Some (log ERROR [Lit "Unexpected error: "; Err e])
  end.

Section Start.

(** [_run_main_loop] polls and sleeps until a signal handler clears
    [self.running]; when that happens is decided outside the control flow
    of the program.  The loop is not described here: [run_main_loop] stands
    for whatever it does before it ends. *)
Variable run_main_loop : WaterReminderScheduler.t -> M unit.

(** The wall clock at the moment the scheduler is constructed. *)
Variable now : Z.

(** The statements of the [try] block of [start].  [Config.validate] has
    raised unless both credentials are non-empty strings, so the branch
    without credentials is never taken. *)
Definition attempt_start (cls : Config.t) : M unit :=
  _validate_configuration cls ;;
  match credentials cls with
  | Some (bot_token, chat_id) =>
      notifier <- _initialize_notifier bot_token chat_id ;;
      match notifier with
      | None => ret tt
      | Some notifier =>
          scheduler <- _initialize_scheduler notifier now ;;
          run_main_loop scheduler
      end
  | None => ret tt
  end.

(** [start] *)
Definition start (cls : Config.t) : M unit :=
  try_finally
    (try_except (attempt_start cls) handlers)
    (log INFO [Lit "Water Reminder Bot has stopped"]).

End Start.

End WaterReminderApp.

(* ===================================================================== *)
(** ** Vocabulary of the statements *)
(* ===================================================================== *)

(** The outcomes of a request on which [_send_request] returns [True]: the
    status is not an error status, the body decodes to an object, and the
    value under ["ok"] is truthy. *)
Definition accepts (o : PostResult) : bool :=
  match o with
  | Fails _ => false
  | Responds r =>
      negb (is_error_status (status_code r))
      && match body r with
         | Decodes (JObj items) =>
             match lookup "ok" items with
             | Some v => truthy v
             | None => false
             end
         | _ => false
         end
  end.

(** A 2xx response whose JSON body has ["ok": true]. *)
Definition ok_2xx (o : PostResult) : bool :=
  match o with
  | Fails _ => false
  | Responds r =>
      (200 <=? status_code r) && (status_code r <? 300)
      && match body r with
         | Decodes (JObj items) =>
             match lookup "ok" items with
             | Some (JBool true) => true
             | _ => false
             end
         | _ => false
         end
  end.

(** The number of seconds that a rate-limited response asks for: the
    integer that [int] reads in its [Retry-After] header, [5] without the
    header, and nothing when [int] refuses the header. *)
Definition retry_after_secs (r : Response) : option Z :=
  match retry_after_header r with
  | Some text => int_of_string text
  | None => Some TelegramNotifier.DEFAULT_RETRY_AFTER
  end.

(** The back-off events of [_wait_before_retry]. *)
Definition backoff (attempt max_retries : Z) : list Event :=
  if attempt <? max_retries - 1
  then [Log INFO [Lit "Retrying in "; Num (2 ^ attempt); Lit " seconds..."];
        Sleep (2 ^ attempt)]
  else [].

(** The log record of a rate-limited response. *)
Definition rate_limit_log (r : Response) : Event :=
  Log WARNING
    [Lit "Rate limited. Waiting ";
     match retry_after_header r with
     | Some text => Str text
     | None => Num TelegramNotifier.DEFAULT_RETRY_AFTER
     end;
     Lit " seconds..."].

(** The log record with which [_send_reminder] reports a delivery. *)
Definition reminder_log (delivered : bool) (time_str : string) : Event :=
  if delivered
  then Log INFO [Lit "Reminder sent successfully at "; Str time_str]
  else Log ERROR [Lit "Failed to send reminder at "; Str time_str].

(** What a poll at the instant [now] does to a job of the registry. *)
Definition after_poll (now : Z) (job : Job) : Job :=
  if next_run job <=? now then Schedule.advance now job else job.

(** A credential that is absent or empty. *)
Definition is_missing (x : option string) : bool :=
  match x with
  | None => true
  | Some EmptyString => true
  | Some (String _ _) => false
  end.

(** The names of the missing credentials, token first. *)
Definition missing (cls : Config.t) : list string :=
  (if is_missing (Config.TELEGRAM_BOT_TOKEN cls) then [Config.ENV_BOT_TOKEN] else [])
  ++ (if is_missing (Config.TELEGRAM_CHAT_ID cls) then [Config.ENV_CHAT_ID] else []).

(** An empty credential replaced by an absent one. *)
Definition unset_if_empty (x : option string) : option string :=
  if is_missing x then None else x.

(** [extend evs w]: the world [w] after the events [evs]. *)
Definition extend (evs : list Event) (w : World) : World :=
  mkWorld (net w) (trace w ++ evs) (jobs w) (monotonic w).

(** What the next request of the world [w] meets. *)
Definition next_result (w : World) : PostResult := net w (posts (trace w)).


(** The clock leaves room for a sleep of [secs] seconds whenever it is
    read: such a sleep is neither too long for [time.sleep] nor ends beyond
    the range of the clock, which counts nanoseconds in 64 bits. *)
Definition room (w : World) (secs : Z) : Prop :=
  secs <= 9223372036
  /\ forall k, monotonic w k + secs * 1000000000 <= 9223372036854775807.

(** [Refuses clock secs e]: [time.sleep(secs)] raises [e] when the
    monotonic clock reads [clock]. *)
Inductive Refuses (clock secs : Z) : Exn -> Prop :=
| refuses_too_long :
    secs < -9223372036 \/ 9223372036 < secs ->
    Refuses clock secs
      (OverflowError "timestamp too large to convert to C _PyTime_t")
| refuses_negative :
    -9223372036 <= secs < 0 ->
    Refuses clock secs (ValueError "sleep length must be non-negative")
| refuses_deadline :
    0 <= secs <= 9223372036 ->
    9223372036854775807 < clock + secs * 1000000000 ->
    Refuses clock secs (OSError "[Errno 22] Invalid argument").

(** The record that announces a back-off sleep. *)
Definition retry_log (attempt : Z) : Event :=
  Log INFO [Lit "Retrying in "; Num (2 ^ attempt); Lit " seconds..."].

(** The exception, if any, with which the back-off sleep of the attempt
    [attempt] ends in the world [w]. *)
Definition backoff_refusal (attempt max_retries : Z) (w : World) : option Exn :=
  if attempt <? max_retries - 1 then refused (reading w) (2 ^ attempt) else None.

(** The exception of an f-string that cannot be built. *)
Definition too_many_digits : Exn :=
  ValueError "Exceeds the limit (4300 digits) for integer string conversion; use sys.set_int_max_str_digits() to increase the limit".

(** How an iteration ends once its [try] statement has been left without a
    [return], in the world [w]: with the back-off sleep, with the exception
    of a record that cannot be built, or with the exception of a sleep that
    is refused. *)
Definition fall_through (attempt max_retries : Z) (w : World)
  : Outcome (option bool) * World :=
  if (attempt <? max_retries - 1) && (UNPRINTABLE <=? Z.abs (2 ^ attempt))
  then (Raise too_many_digits, w)
  else match backoff_refusal attempt max_retries w with
       | None => (Return None, extend (backoff attempt max_retries) w)
       | Some e => (Raise e, extend [retry_log attempt] w)
       end.

Section Calls.

Variable self : TelegramNotifier.t.
Variable message : string.
Variable max_retries : Z.

(** The log record of a delivered message. *)
Definition success_log : Event :=
  Log INFO [Lit "Message sent successfully: ";
            Str (TelegramNotifier.preview message)].

(** The log record of a call that used up its attempts. *)
Definition exhausted_log : Event :=
  Log ERROR [Lit "Failed to send message after "; Num max_retries;
             Lit " attempts"].

(** The request that [_send_request] issues. *)
Definition the_post : Event :=
  Post (TelegramNotifier.api_url self)
       (mkPayload (TelegramNotifier.chat_id self) message
                  TelegramNotifier.PARSE_MODE)
       TelegramNotifier.DEFAULT_TIMEOUT.

(** [Reached w0 attempt w]: in the call [send_message(message, max_retries)]
    started in the world [w0], the loop begins the iteration of index
    [attempt] in the world [w].  The first iteration begins in [w0]; a
    further one begins where the previous one ended without leaving the
    method, provided the range is not exhausted. *)
Inductive Reached (w0 : World) : Z -> World -> Prop :=
| reached_first :
    0 < max_retries -> Reached w0 0 w0
| reached_next attempt w w' :
    Reached w0 attempt w ->
    TelegramNotifier.iteration self message max_retries attempt w
      = (Return None, w') ->
    attempt + 1 < max_retries ->
    Reached w0 (attempt + 1) w'.

(** Events that are neither requests nor sleeps. *)
Definition quiet (evs : list Event) : Prop := sleeps evs = [] /\ posts evs = 0%nat.

(** [Escape attempt w e evs]: the ways in which the exception [e] leaves
    the iteration of index [attempt] begun in [w], with [evs] the events
    that follow the request.  [int] refuses the hint of a rate-limited
    response, or [time.sleep] does; the body decodes to a value that is not
    an object, or [json.loads] raises; the request failed, or its body is
    not JSON, and the record of it cannot be built, since the number of the
    attempt or the number of attempts has more than 4300 digits; or the
    attempt failed and the record of the back-off sleep cannot be built, or
    [time.sleep] refuses that sleep. *)
Inductive Escape (attempt : Z) (w : World) : Exn -> list Event -> Prop :=
| escape_hint r text :
    next_result w = Responds r ->
    status_code r = 429 ->
    retry_after_secs r = None ->
    Escape attempt w (ValueError text) [rate_limit_log r]
| escape_wait r secs e :
    next_result w = Responds r ->
    status_code r = 429 ->
    retry_after_secs r = Some secs ->
    Refuses (reading w) secs e ->
    Escape attempt w e [rate_limit_log r]
| escape_body r v text :
    next_result w = Responds r ->
    is_error_status (status_code r) = false ->
    body r = Decodes v ->
    type_name v <> "dict"%string ->
    Escape attempt w (AttributeError text) []
| escape_loads r e :
    next_result w = Responds r ->
    is_error_status (status_code r) = false ->
    body r = LoadsFails e ->
    Escape attempt w (loads_exn e) []
| escape_numbered :
    (exists f, next_result w = Fails f)
    \/ (exists r, next_result w = Responds r
                  /\ is_error_status (status_code r) = false
                  /\ body r = NotJSON) ->
    10 ^ 4300 <= Z.abs (attempt + 1) \/ 10 ^ 4300 <= Z.abs max_retries ->
    Escape attempt w too_many_digits []
| escape_retry_log evs :
    accepts (next_result w) = false ->
    posts evs = 0%nat ->
    (sleeps evs = []
     \/ exists r secs,
          next_result w = Responds r /\ status_code r = 429
          /\ retry_after_secs r = Some secs /\ sleeps evs = [secs]) ->
    attempt < max_retries - 1 ->
    10 ^ 4300 <= 2 ^ attempt ->
    Escape attempt w too_many_digits evs
| escape_backoff evs e :
    accepts (next_result w) = false ->
    posts evs = 0%nat ->
    (sleeps evs = []
     \/ exists r secs,
          next_result w = Responds r /\ status_code r = 429
          /\ retry_after_secs r = Some secs /\ sleeps evs = [secs]) ->
    attempt < max_retries - 1 ->
    Refuses (reading (extend (the_post :: evs) w)) (2 ^ attempt) e ->
    Escape attempt w e (evs ++ [retry_log attempt]).

(** [Step attempt w res w']: the ways in which one iteration of index
    [attempt], begun in [w], can end with result [res] in the world [w']. *)
Inductive Step (attempt : Z) (w : World) : Outcome (option bool) -> World -> Prop :=
| step_success :
    accepts (next_result w) = true ->
    Step attempt w (Return (Some true)) (extend [the_post; success_log] w)
| step_failed evs :
    accepts (next_result w) = false ->
    quiet evs ->
    Step attempt w (Return None)
      (extend (the_post :: evs ++ backoff attempt max_retries) w)
| step_rate_limited r secs evs :
    next_result w = Responds r ->
    status_code r = 429 ->
    retry_after_secs r = Some secs ->
    0 <= secs ->
    quiet evs ->
    Step attempt w (Return None)
      (extend (the_post :: evs ++ Sleep secs :: backoff attempt max_retries) w)
| step_fatal r evs :
    next_result w = Responds r ->
    is_error_status (status_code r) = true ->
    status_code r <> 429 ->
    status_code r = 401 \/ status_code r = 400 \/ max_retries - 1 <= attempt ->
    quiet evs ->
    Step attempt w (Return (Some false)) (extend (the_post :: evs) w)
| step_escape e evs :
    Escape attempt w e evs ->
    Step attempt w (Raise e) (extend (the_post :: evs) w).

End Calls.

(* ===================================================================== *)
(** ** Sample worlds *)
(* ===================================================================== *)

Definition bot : TelegramNotifier.t := TelegramNotifier.__init__ "123:abc" "42".

(** The monotonic clock one hour after boot. *)
Definition HOUR : Z := 3600000000000.

(** A world in which nothing has happened yet. *)
Definition fresh (network : nat -> PostResult) : World :=
  mkWorld network [] [] (fun _ => HOUR).

Definition status_only (status : Z) : PostResult :=
  Responds (mkResponse status None NotJSON).

Definition rate_limited (hint : string) : PostResult :=
  Responds (mkResponse 429 (Some hint) NotJSON).

Definition answer (status : Z) (items : list (string * JSON)) : PostResult :=
  Responds (mkResponse status None (Decodes (JObj items))).


(* ===================================================================== *)
(** ** Vocabulary of the further properties *)
(* ===================================================================== *)





(** The job that the constructor registers for an entry of the table. *)
Definition job_of_entry (now : Z) (entry : string * string) : list Job :=
  match Schedule.parse_time (fst entry) with
  | Some at_time =>
      [mkJob at_time (Schedule.first_run now at_time) (snd entry) (fst entry)]
  | None => []
  end.

Definition scheduled_log (entry : string * string) : Event :=
  Log INFO [Lit "Scheduled reminder at "; Str (fst entry)].

(** The log records of [start]. *)
Definition loading_log : Event := Log INFO [Lit "Loading configuration..."].

Definition stopped_log : Event :=
  Log INFO [Lit "Water Reminder Bot has stopped"].

Definition configuration_error_logs (e : Exn) : list Event :=
  [Log ERROR [Lit "Configuration error: "; Err e];
   Log ERROR [Lit "Please check your .env file and try again"]].

(** The record of an exception that is no [ValueError]. *)
Definition unexpected_error_log (e : Exn) : Event :=
  Log ERROR [Lit "Unexpected error: "; Err e].

(** The records that precede the connection test. *)
Definition before_connection_test : list Event :=
  [loading_log;
   Log INFO [Lit "Configuration validated successfully"];
   Log INFO [Lit "Initializing Telegram notifier..."];
   Log INFO [Lit "Testing Telegram connection..."]].

(** The message of [test_connection]. *)
Definition test_message : string :=
  "ðŸ§ª Test message - Water Reminder Bot is active!".

(** The records of a connection test that fails. *)
Definition connection_failed_logs : list Event :=
  [Log ERROR [Lit "Failed to send test message to Telegram"];
   Log ERROR [Lit "Please check your bot token and chat ID"]].

(** The records between a connection test that succeeds and the records of
    the scheduler. *)
Definition connection_succeeded_logs : list Event :=
  [Log INFO [Lit "Telegram connection test successful!"];
   Log INFO [Lit "Setting up reminder schedule..."]].

(* ===================================================================== *)
(** ** Traces and worlds *)
(* ===================================================================== *)

Lemma posts_app (a b : list Event) : posts (a ++ b) = (posts a + posts b)%nat.
Proof. unfold posts. now rewrite filter_app, length_app. Qed.

Lemma sleeps_app (a b : list Event) : sleeps (a ++ b) = sleeps a ++ sleeps b.
Proof.
  induction a as [|e a IH]; simpl; [reflexivity|].
  destruct e; simpl; now rewrite IH.
Qed.

Lemma emit_extend (e : Event) (w : World) : emit e w = extend [e] w.
Proof. reflexivity. Qed.

Lemma extend_extend (a b : list Event) (w : World) :
  extend b (extend a w) = extend (a ++ b) w.
Proof. unfold extend; simpl. now rewrite app_assoc. Qed.

Lemma extend_nil (w : World) : extend [] w = w.
Proof. destruct w; unfold extend; simpl. now rewrite app_nil_r. Qed.

Lemma monotonic_extend (evs : list Event) (w : World) :
  monotonic (extend evs w) = monotonic w.
Proof. reflexivity. Qed.

Lemma reading_extend (evs : list Event) (w : World) :
  sleeps evs = [] -> reading (extend evs w) = reading w.
Proof.
  intro Q. unfold reading, extend. cbn [trace monotonic].
  now rewrite sleeps_app, Q, app_nil_r.
Qed.

(** *** What an f-string renders *)

Lemma UNPRINTABLE_spec : UNPRINTABLE = 10 ^ 4300.
Proof. vm_compute. reflexivity. Qed.

Lemma sleep_is_printable : 9223372036 < UNPRINTABLE.
Proof. reflexivity. Qed.

Lemma printable_sleep (secs : Z) :
  0 <= secs <= 9223372036 -> (UNPRINTABLE <=? Z.abs secs) = false.
Proof. intro B. pose proof sleep_is_printable. apply Z.leb_gt. lia. Qed.

Lemma unprintable_numbered (attempt max_retries : Z) :
  unprintable [Num (attempt + 1); Num max_retries] = true
  <-> 10 ^ 4300 <= Z.abs (attempt + 1) \/ 10 ^ 4300 <= Z.abs max_retries.
Proof.
  cbn [unprintable existsb]. rewrite orb_false_r, orb_true_iff.
  now rewrite !Z.leb_le, UNPRINTABLE_spec.
Qed.

Lemma printable_numbered (attempt max_retries : Z) :
  Z.abs (attempt + 1) < 10 ^ 4300 -> Z.abs max_retries < 10 ^ 4300 ->
  unprintable [Num (attempt + 1); Num max_retries] = false.
Proof.
  rewrite <- UNPRINTABLE_spec. intros A B.
  cbn [unprintable existsb]. rewrite orb_false_r, orb_false_iff.
  now rewrite !Z.leb_gt.
Qed.

Lemma small_power (k : Z) : 2 ^ k <= 9223372036 -> k <= 33.
Proof.
  intro Le. destruct (Z_le_gt_dec k 33) as [|G]; [assumption|exfalso].
  pose proof (Z.pow_le_mono_r 2 34 k ltac:(lia) ltac:(lia)) as Q.
  change (2 ^ 34) with 17179869184 in Q. lia.
Qed.

Lemma log_printable (level : Level) (msg : list Piece) (w : World) :
  unprintable msg = false ->
  log level msg w = (Return tt, extend [Log level msg] w).
Proof. intro P. unfold log. now rewrite P. Qed.

Lemma log_unprintable (level : Level) (msg : list Piece) (w : World) :
  unprintable msg = true -> log level msg w = (Raise too_many_digits, w).
Proof. intro P. unfold log. now rewrite P. Qed.

(** *** What [time.sleep] accepts *)

Lemma refused_spec (clock secs : Z) (e : Exn) :
  refused clock secs = Some e <-> Refuses clock secs e.
Proof.
  unfold refused, SLEEP_MAX, PYTIME_MAX, NANOSECONDS.
  change (- (9223372036)) with (-9223372036).
  destruct (Z.ltb_spec secs (-9223372036)) as [A|A]; cbn [orb].
  { split.
    - intro E. injection E as <-. apply refuses_too_long. now left.
    - intros [_|B|B C]; [reflexivity|lia|lia]. }
  destruct (Z.ltb_spec 9223372036 secs) as [B|B].
  { split.
    - intro E. injection E as <-. apply refuses_too_long. now right.
    - intros [_|B'|B' C]; [reflexivity|lia|lia]. }
  destruct (Z.ltb_spec secs 0) as [C|C].
  { split.
    - intro E. injection E as <-. apply refuses_negative. lia.
    - intros [[D|D]|_|B' C']; [lia|lia|reflexivity|lia]. }
  destruct (Z.ltb_spec 9223372036854775807 (clock + secs * 1000000000))
    as [D|D]; split.
  - intro E. injection E as <-. apply refuses_deadline; lia.
  - intros [[F|F]|F|_ _]; [lia|lia|lia|reflexivity].
  - discriminate.
  - intros [[F|F]|F|_ F]; lia.
Qed.

Lemma accepted_spec (clock secs : Z) :
  refused clock secs = None
  <-> 0 <= secs <= 9223372036
      /\ clock + secs * 1000000000 <= 9223372036854775807.
Proof.
  split.
  - intro N.
    destruct (Z_lt_le_dec secs (-9223372036)) as [A|A].
    { rewrite (proj2 (refused_spec clock secs _)
                 (refuses_too_long clock secs (or_introl A))) in N.
      discriminate. }
    destruct (Z_lt_le_dec 9223372036 secs) as [B|B].
    { rewrite (proj2 (refused_spec clock secs _)
                 (refuses_too_long clock secs (or_intror B))) in N.
      discriminate. }
    destruct (Z_lt_le_dec secs 0) as [C|C].
    { rewrite (proj2 (refused_spec clock secs _)
                 (refuses_negative clock secs (conj A C))) in N.
      discriminate. }
    destruct (Z_lt_le_dec 9223372036854775807 (clock + secs * 1000000000))
      as [D|D].
    { rewrite (proj2 (refused_spec clock secs _)
                 (refuses_deadline clock secs (conj C B) D)) in N.
      discriminate. }
    lia.
  - intros [B D]. destruct (refused clock secs) as [e|] eqn:R; [|reflexivity].
    apply refused_spec in R. destruct R as [[F|F]|F|_ F]; lia.
Qed.

Lemma room_lets_sleep (w : World) (limit secs : Z) (k : nat) :
  room w limit -> 0 <= secs <= limit -> refused (monotonic w k) secs = None.
Proof.
  intros [L R] B. specialize (R k). apply accepted_spec. lia.
Qed.

Lemma room_smaller (w : World) (limit secs : Z) :
  room w limit -> secs <= limit -> room w secs.
Proof.
  unfold room. intros [L R] B. split; [lia|].
  intro k. specialize (R k). lia.
Qed.

Lemma room_extend (evs : list Event) (w : World) (secs : Z) :
  room (extend evs w) secs <-> room w secs.
Proof. reflexivity. Qed.

Lemma time_sleep_accepted (secs : Z) (w : World) :
  refused (reading w) secs = None ->
  time_sleep secs w = (Return tt, extend [Sleep secs] w).
Proof. intro R. unfold time_sleep. now rewrite R. Qed.

Lemma time_sleep_refused (secs : Z) (w : World) (e : Exn) :
  refused (reading w) secs = Some e -> time_sleep secs w = (Raise e, w).
Proof. intro R. unfold time_sleep. now rewrite R. Qed.

Lemma refused_negative (clock secs : Z) :
  -9223372036 <= secs < 0 ->
  refused clock secs = Some (ValueError "sleep length must be non-negative").
Proof. intro B. apply refused_spec. now apply refuses_negative. Qed.

Lemma refused_overflow (clock secs : Z) :
  secs < -9223372036 \/ 9223372036 < secs ->
  refused clock secs
  = Some (OverflowError "timestamp too large to convert to C _PyTime_t").
Proof. intro B. apply refused_spec. now apply refuses_too_long. Qed.

Lemma refuses_kind (clock secs : Z) (e : Exn) :
  Refuses clock secs e ->
  match e with
  | ValueError _ | OverflowError _ | OSError _ => True
  | _ => False
  end.
Proof. now intros [| |]. Qed.

Lemma backoff_refusal_spec (attempt max_retries : Z) (w : World) (e : Exn) :
  backoff_refusal attempt max_retries w = Some e
  <-> attempt < max_retries - 1 /\ Refuses (reading w) (2 ^ attempt) e.
Proof.
  unfold backoff_refusal.
  destruct (Z.ltb_spec attempt (max_retries - 1)) as [B|B].
  - rewrite refused_spec. tauto.
  - split; [discriminate|]. intros [L _]. lia.
Qed.

Lemma backoff_refusal_room (w0 w : World) (attempt max_retries : Z) :
  (attempt < max_retries - 1 -> room w0 (2 ^ attempt)) ->
  monotonic w = monotonic w0 ->
  backoff_refusal attempt max_retries w = None.
Proof.
  intros R Mo. unfold backoff_refusal.
  destruct (Z.ltb_spec attempt (max_retries - 1)) as [B|B]; [|reflexivity].
  unfold reading. rewrite Mo.
  apply (room_lets_sleep w0 (2 ^ attempt)); [now apply R|].
  split; [apply Z.pow_nonneg|]; lia.
Qed.

Lemma fall_through_accepted (attempt max_retries : Z) (evs : list Event)
    (w : World) :
  backoff_refusal attempt max_retries (extend evs w) = None ->
  fall_through attempt max_retries (extend evs w)
  = (Return None, extend (evs ++ backoff attempt max_retries) w).
Proof.
  intro B. unfold fall_through. rewrite B, extend_extend.
  destruct (attempt <? max_retries - 1) eqn:L; [|reflexivity].
  unfold backoff_refusal in B. rewrite L in B. apply accepted_spec in B.
  now rewrite (printable_sleep (2 ^ attempt)).
Qed.

Lemma fall_through_room (attempt max_retries : Z) (evs : list Event)
    (w : World) :
  (attempt < max_retries - 1 -> room w (2 ^ attempt)) ->
  fall_through attempt max_retries (extend evs w)
  = (Return None, extend (evs ++ backoff attempt max_retries) w).
Proof.
  intro R. apply fall_through_accepted.
  now apply (backoff_refusal_room w).
Qed.

Lemma fall_through_cases (attempt max_retries : Z) (w : World) :
  (attempt < max_retries - 1 /\ 10 ^ 4300 <= 2 ^ attempt
   /\ fall_through attempt max_retries w = (Raise too_many_digits, w))
  \/ fall_through attempt max_retries w
     = match backoff_refusal attempt max_retries w with
       | None => (Return None, extend (backoff attempt max_retries) w)
       | Some e => (Raise e, extend [retry_log attempt] w)
       end.
Proof.
  unfold fall_through.
  destruct (Z.ltb_spec attempt (max_retries - 1)) as [L|L]; [|now right].
  destruct (Z.leb_spec UNPRINTABLE (Z.abs (2 ^ attempt))) as [P|P];
    [left|now right].
  rewrite UNPRINTABLE_spec in P.
  rewrite Z.abs_eq in P by (apply Z.pow_nonneg; lia).
  now repeat split.
Qed.

Section Notifier.

Variable self : TelegramNotifier.t.
Variable message : string.
Variable max_retries : Z.

Abbreviation iteration := (TelegramNotifier.iteration self message max_retries).
Abbreviation loop := (TelegramNotifier.loop self message max_retries).
Abbreviation send_message := (TelegramNotifier.send_message self message max_retries).

Lemma wait_before_retry_spec (attempt : Z) (w : World) :
  (TelegramNotifier._wait_before_retry self attempt max_retries ;; ret None) w
  = fall_through attempt max_retries w.
Proof.
  unfold TelegramNotifier._wait_before_retry, fall_through, backoff_refusal,
    backoff, bind.
  destruct (attempt <? max_retries - 1); cbn [andb].
  - unfold log at 1. cbn [unprintable existsb orb]. rewrite orb_false_r.
    destruct (UNPRINTABLE <=? Z.abs (2 ^ attempt)); [reflexivity|].
    unfold time_sleep. rewrite emit_extend.
    rewrite (reading_extend _ w) by reflexivity.
    destruct (refused (reading w) (2 ^ attempt)); [reflexivity|].
    now rewrite !emit_extend, extend_extend.
  - now rewrite extend_nil.
Qed.

Abbreviation _send_request := (TelegramNotifier._send_request self message).
Abbreviation the_post := (the_post self message).
Abbreviation success_log := (success_log message).
Abbreviation exhausted_log := (exhausted_log max_retries).

(** *** One request *)

Lemma send_request_fails (w : World) (f : NetworkError) :
  next_result w = Fails f ->
  _send_request w = (Raise (exn_of f), extend [the_post] w).
Proof.
  intro H. unfold TelegramNotifier._send_request, bind, requests_post.
  fold (next_result w). now rewrite H.
Qed.

Lemma send_request_error (w : World) (r : Response) :
  next_result w = Responds r ->
  is_error_status (status_code r) = true ->
  _send_request w = (Raise (HTTPError "HTTP error status" r), extend [the_post] w).
Proof.
  intros H E. unfold TelegramNotifier._send_request, bind, requests_post.
  fold (next_result w). rewrite H. unfold raise_for_status. now rewrite E.
Qed.

Lemma error_status_not_accepted (r : Response) :
  is_error_status (status_code r) = true -> accepts (Responds r) = false.
Proof. intro E. unfold accepts. now rewrite E. Qed.

Lemma quiet_nil : quiet [].
Proof. now split. Qed.

Lemma quiet_log (level : Level) (msg : list Piece) : quiet [Log level msg].
Proof. now split. Qed.

#[local] Hint Resolve quiet_nil quiet_log : core.

(** A response that is not an error: the body is read. *)
Lemma send_request_reads (w : World) (r : Response) :
  next_result w = Responds r ->
  is_error_status (status_code r) = false ->
  (accepts (Responds r) = true /\
   _send_request w =
     (Return true,
      extend [the_post;
              Log INFO [Lit "Message sent successfully: ";
                        Str (TelegramNotifier.preview message)]] w))
  \/
  (accepts (Responds r) = false /\
   ((exists description,
       _send_request w =
         (Return false,
          extend [the_post;
                  Log ERROR [Lit "Telegram API error: "; Val description]] w))
    \/ (exists text,
          body r = NotJSON /\
          _send_request w = (Raise (RequestException text), extend [the_post] w))
    \/ (exists v text,
          body r = Decodes v /\ type_name v <> "dict"%string /\
          _send_request w = (Raise (AttributeError text), extend [the_post] w))
    \/ (exists e,
          body r = LoadsFails e /\
          _send_request w = (Raise (loads_exn e), extend [the_post] w)))).
Proof.
  intros H E. unfold TelegramNotifier._send_request, bind, requests_post.
  fold (next_result w). rewrite H. unfold raise_for_status. rewrite E.
  unfold accepts. rewrite E. cbn [negb andb].
  unfold ret, response_json.
  destruct (body r) as [v| |e].
  2: { right; split; [reflexivity|]. right; left. now eexists. }
  2: { right; split; [reflexivity|]. right; right; right. now exists e. }
  unfold ret, dict_get.
  destruct v; unfold raise, ret;
    try (right; split; [reflexivity|]; right; right; left;
         eexists; eexists; split; [reflexivity|];
         split; [discriminate|reflexivity]).
  destruct (lookup "ok" items) as [v|]; cbn [truthy].
  - destruct (truthy v); unfold log, bind.
    + left. split; [reflexivity|]. now rewrite !emit_extend, extend_extend.
    + right. split; [reflexivity|]. left. eexists.
      now rewrite !emit_extend, extend_extend.
  - right. split; [reflexivity|]. left. eexists. unfold log, bind.
    now rewrite !emit_extend, extend_extend.
Qed.

(** *** One iteration of the loop *)

(** The iteration, once the [try] statement has been left without a
    [return] in the world [w1]. *)
Lemma iteration_falls (attempt : Z) (w w1 : World) :
  try_except
    (success <- _send_request ;;
     if success then ret (Some true) else ret None)
    (TelegramNotifier.handlers self attempt max_retries) w
  = (Return None, w1) ->
  iteration attempt w = fall_through attempt max_retries w1.
Proof.
  intro T. unfold TelegramNotifier.iteration, bind at 1. rewrite T.
  apply wait_before_retry_spec.
Qed.

Lemma iteration_success (attempt : Z) (w : World) :
  accepts (next_result w) = true ->
  iteration attempt w =
    (Return (Some true),
     extend [the_post;
             Log INFO [Lit "Message sent successfully: ";
                       Str (TelegramNotifier.preview message)]] w).
Proof.
  intro A. destruct (next_result w) as [f|r] eqn:H; [discriminate|].
  destruct (is_error_status (status_code r)) eqn:E.
  { now rewrite (error_status_not_accepted r E) in A. }
  destruct (send_request_reads w r H E) as [[_ R]|[A' _]]; [|congruence].
  unfold TelegramNotifier.iteration, try_except, bind. now rewrite R.
Qed.

Lemma iteration_network_error (attempt : Z) (w : World) (f : NetworkError) :
  next_result w = Fails f ->
  exists level msg,
    iteration attempt w
    = if unprintable [Num (attempt + 1); Num max_retries]
      then (Raise too_many_digits, extend [the_post] w)
      else fall_through attempt max_retries
             (extend [the_post; Log level msg] w).
Proof.
  intro H.
  destruct f; do 2 eexists;
    (destruct (unprintable [Num (attempt + 1); Num max_retries]) eqn:P;
     [ unfold TelegramNotifier.iteration, bind at 1
     | apply iteration_falls ]);
    unfold try_except, bind; rewrite (send_request_fails w _ H);
    cbn [exn_of TelegramNotifier.handlers]; unfold log, bind, ret;
    cbn [unprintable existsb orb] in P |- *; rewrite ?orb_false_r in P |- *;
    rewrite P; try reflexivity;
    now rewrite emit_extend, extend_extend.
Qed.

Lemma iteration_not_json (attempt : Z) (w : World) (r : Response)
    (text : string) :
  _send_request w = (Raise (RequestException text), extend [the_post] w) ->
  iteration attempt w
  = if unprintable [Num (attempt + 1); Num max_retries]
    then (Raise too_many_digits, extend [the_post] w)
    else fall_through attempt max_retries
           (extend [the_post;
                    Log ERROR [Lit "Request error on attempt ";
                               Num (attempt + 1); Lit "/";
                               Num max_retries; Lit ": ";
                               Err (RequestException text)]] w).
Proof.
  intro R.
  destruct (unprintable [Num (attempt + 1); Num max_retries]) eqn:P;
    [ unfold TelegramNotifier.iteration, bind at 1
    | apply iteration_falls ];
    unfold try_except, bind; rewrite R;
    cbn [TelegramNotifier.handlers]; unfold log, bind, ret;
    cbn [unprintable existsb orb] in P |- *; rewrite ?orb_false_r in P |- *;
    rewrite P; try reflexivity;
    now rewrite emit_extend, extend_extend.
Qed.

(** What the handler of [HTTPError] does with a rate-limited response. *)
Lemma handle_rate_limited (error : Exn) (attempt : Z) (w : World) (r : Response) :
  status_code r = 429 ->
  TelegramNotifier._handle_http_error self error r attempt max_retries w
  = match retry_after_header r with
    | Some text =>
        (secs <- py_int (IsStr text) ;; time_sleep secs ;; ret true)
          (extend [rate_limit_log r] w)
    | None =>
        (time_sleep TelegramNotifier.DEFAULT_RETRY_AFTER ;; ret true)
          (extend [rate_limit_log r] w)
    end.
Proof.
  intro S. unfold TelegramNotifier._handle_http_error.
  rewrite S. cbn [Z.eqb TelegramNotifier.STATUS_RATE_LIMITED Pos.eqb].
  unfold rate_limit_log.
  destruct (retry_after_header r) as [text|]; reflexivity.
Qed.

Lemma py_int_reads (text : string) (w : World) :
  match int_of_string text with
  | Some secs => py_int (IsStr text) w = (Return secs, w)
  | None => exists msg, py_int (IsStr text) w = (Raise (ValueError msg), w)
  end.
Proof.
  unfold int_of_string, py_int.
  destruct (int_literal text); [reflexivity|now eexists|now eexists].
Qed.

Lemma handle_hint (error : Exn) (attempt : Z) (w : World) (r : Response)
    (secs : Z) :
  status_code r = 429 ->
  retry_after_secs r = Some secs ->
  TelegramNotifier._handle_http_error self error r attempt max_retries w
  = match refused (reading w) secs with
    | None => (Return true, extend [rate_limit_log r; Sleep secs] w)
    | Some e => (Raise e, extend [rate_limit_log r] w)
    end.
Proof.
  intros S R. rewrite handle_rate_limited by exact S.
  unfold retry_after_secs in R.
  assert (Sl : (time_sleep secs ;; ret true) (extend [rate_limit_log r] w)
               = match refused (reading w) secs with
                 | None => (Return true, extend [rate_limit_log r; Sleep secs] w)
                 | Some e => (Raise e, extend [rate_limit_log r] w)
                 end).
  { unfold bind, time_sleep.
    rewrite (reading_extend _ w) by reflexivity.
    destruct (refused (reading w) secs); [reflexivity|].
    unfold ret. now rewrite emit_extend, extend_extend. }
  destruct (retry_after_header r) as [text|].
  - pose proof (py_int_reads text (extend [rate_limit_log r] w)) as P.
    rewrite R in P. unfold bind at 1. rewrite P. exact Sl.
  - injection R as <-. exact Sl.
Qed.

Lemma handle_bad_hint (error : Exn) (attempt : Z) (w : World) (r : Response) :
  status_code r = 429 ->
  retry_after_secs r = None ->
  exists text,
    TelegramNotifier._handle_http_error self error r attempt max_retries w
    = (Raise (ValueError text), extend [rate_limit_log r] w).
Proof.
  intros S R. rewrite handle_rate_limited by exact S.
  unfold retry_after_secs in R.
  destruct (retry_after_header r) as [text|]; [|discriminate].
  pose proof (py_int_reads text (extend [rate_limit_log r] w)) as P.
  rewrite R in P. destruct P as (msg & P). exists msg.
  unfold bind. now rewrite P.
Qed.

Lemma iteration_http_error (attempt : Z) (w : World) (r : Response) :
  next_result w = Responds r ->
  is_error_status (status_code r) = true ->
  iteration attempt w
  = match TelegramNotifier._handle_http_error self
            (HTTPError "HTTP error status" r) r attempt max_retries
            (extend [the_post] w) with
    | (Return true, w1) => fall_through attempt max_retries w1
    | (Return false, w1) => (Return (Some false), w1)
    | (Raise e, w1) => (Raise e, w1)
    end.
Proof.
  intros H E.
  destruct (TelegramNotifier._handle_http_error self
              (HTTPError "HTTP error status" r) r attempt max_retries
              (extend [the_post] w)) as [[[|]|e] w1] eqn:Hd.
  - apply iteration_falls. unfold try_except, bind.
    rewrite (send_request_error w r H E).
    cbn [TelegramNotifier.handlers]. unfold bind. now rewrite Hd.
  - unfold TelegramNotifier.iteration, try_except, bind.
    rewrite (send_request_error w r H E).
    cbn [TelegramNotifier.handlers]. unfold bind. now rewrite Hd.
  - unfold TelegramNotifier.iteration, try_except, bind.
    rewrite (send_request_error w r H E).
    cbn [TelegramNotifier.handlers]. unfold bind. now rewrite Hd.
Qed.

Lemma rate_limited_is_error (r : Response) :
  status_code r = 429 -> is_error_status (status_code r) = true.
Proof. now intros ->. Qed.

Lemma iteration_rate_limited (attempt : Z) (w : World) (r : Response) (secs : Z) :
  next_result w = Responds r ->
  status_code r = 429 ->
  retry_after_secs r = Some secs ->
  refused (reading w) secs = None ->
  iteration attempt w
  = fall_through attempt max_retries
      (extend [the_post; rate_limit_log r; Sleep secs] w).
Proof.
  intros H S R P.
  rewrite (iteration_http_error attempt w r H (rate_limited_is_error r S)).
  rewrite (handle_hint _ attempt _ r secs S R).
  rewrite (reading_extend _ w) by reflexivity.
  now rewrite P, extend_extend.
Qed.

Lemma iteration_wait_refused (attempt : Z) (w : World) (r : Response)
    (secs : Z) (e : Exn) :
  next_result w = Responds r ->
  status_code r = 429 ->
  retry_after_secs r = Some secs ->
  refused (reading w) secs = Some e ->
  iteration attempt w = (Raise e, extend [the_post; rate_limit_log r] w).
Proof.
  intros H S R P.
  rewrite (iteration_http_error attempt w r H (rate_limited_is_error r S)).
  rewrite (handle_hint _ attempt _ r secs S R).
  rewrite (reading_extend _ w) by reflexivity.
  now rewrite P, extend_extend.
Qed.

Lemma iteration_hint_refused (attempt : Z) (w : World) (r : Response) :
  next_result w = Responds r ->
  status_code r = 429 ->
  retry_after_secs r = None ->
  exists text,
    iteration attempt w =
      (Raise (ValueError text), extend [the_post; rate_limit_log r] w).
Proof.
  intros H S R.
  rewrite (iteration_http_error attempt w r H (rate_limited_is_error r S)).
  destruct (handle_bad_hint (HTTPError "HTTP error status" r) attempt
              (extend [the_post] w) r S R) as (text & ->).
  exists text. now rewrite extend_extend.
Qed.

Lemma iteration_fatal (attempt : Z) (w : World) (r : Response) :
  next_result w = Responds r ->
  status_code r = 401 \/ status_code r = 400 ->
  exists msg,
    iteration attempt w =
      (Return (Some false), extend [the_post; Log ERROR msg] w).
Proof.
  intros H S. unfold TelegramNotifier.iteration, try_except, bind.
  rewrite (send_request_error w r H) by (now destruct S as [-> | ->]).
  cbn [TelegramNotifier.handlers].
  unfold TelegramNotifier._handle_http_error, bind.
  destruct S as [-> | ->]; cbn; eexists;
    now rewrite !emit_extend, !extend_extend.
Qed.

Lemma iteration_other_error (attempt : Z) (w : World) (r : Response) :
  next_result w = Responds r ->
  is_error_status (status_code r) = true ->
  status_code r <> 429 -> status_code r <> 401 -> status_code r <> 400 ->
  exists msg,
    iteration attempt w =
      if attempt <? max_retries - 1
      then fall_through attempt max_retries
             (extend [the_post; Log ERROR msg] w)
      else (Return (Some false), extend [the_post; Log ERROR msg] w).
Proof.
  intros H E S1 S2 S3.
  rewrite (iteration_http_error attempt w r H E).
  unfold TelegramNotifier._handle_http_error, bind.
  unfold TelegramNotifier.STATUS_RATE_LIMITED,
    TelegramNotifier.STATUS_UNAUTHORIZED, TelegramNotifier.STATUS_BAD_REQUEST.
  destruct (Z.eqb_spec (status_code r) 429); [contradiction|].
  destruct (Z.eqb_spec (status_code r) 401); [contradiction|].
  destruct (Z.eqb_spec (status_code r) 400); [contradiction|].
  unfold log, ret. eexists.
  destruct (attempt <? max_retries - 1);
    now rewrite !emit_extend, !extend_extend.
Qed.

(** An iteration that falls through ends in a way of [Step]. *)
Lemma fall_through_failed (attempt : Z) (w : World) (evs : list Event) :
  accepts (next_result w) = false ->
  quiet evs ->
  Step self message max_retries attempt w
    (fst (fall_through attempt max_retries (extend (the_post :: evs) w)))
    (snd (fall_through attempt max_retries (extend (the_post :: evs) w))).
Proof.
  intros A Q.
  destruct (fall_through_cases attempt max_retries (extend (the_post :: evs) w))
    as [(L & P & ->)| ->].
  { cbn [fst snd]. apply step_escape.
    apply escape_retry_log; try assumption; [apply Q|left; apply Q]. }
  destruct (backoff_refusal attempt max_retries (extend (the_post :: evs) w))
    as [e|] eqn:B; cbn [fst snd]; rewrite extend_extend; cbn [app].
  - apply backoff_refusal_spec in B as [L Rf].
    apply step_escape. apply escape_backoff; try assumption.
    + apply Q.
    + left. apply Q.
  - now apply step_failed.
Qed.

Lemma fall_through_rate_limited (attempt : Z) (w : World) (r : Response)
    (secs : Z) :
  next_result w = Responds r ->
  status_code r = 429 ->
  retry_after_secs r = Some secs ->
  0 <= secs ->
  Step self message max_retries attempt w
    (fst (fall_through attempt max_retries
            (extend [the_post; rate_limit_log r; Sleep secs] w)))
    (snd (fall_through attempt max_retries
            (extend [the_post; rate_limit_log r; Sleep secs] w))).
Proof.
  intros H S R P.
  destruct (fall_through_cases attempt max_retries
              (extend [the_post; rate_limit_log r; Sleep secs] w))
    as [(L & U & ->)| ->].
  { cbn [fst snd]. apply step_escape.
    apply escape_retry_log; try assumption.
    - rewrite H. apply error_status_not_accepted. now rewrite S.
    - reflexivity.
    - right. now exists r, secs. }
  destruct (backoff_refusal attempt max_retries
              (extend [the_post; rate_limit_log r; Sleep secs] w))
    as [e|] eqn:B; cbn [fst snd]; rewrite extend_extend; cbn [app].
  - apply backoff_refusal_spec in B as [L Rf].
    apply (step_escape _ _ _ _ _ e ([rate_limit_log r; Sleep secs]
                                     ++ [retry_log attempt])).
    apply escape_backoff.
    + rewrite H. apply error_status_not_accepted. now rewrite S.
    + reflexivity.
    + right. now exists r, secs.
    + exact L.
    + exact Rf.
  - apply (step_rate_limited _ _ _ _ _ r secs [rate_limit_log r]);
      unfold rate_limit_log; auto.
Qed.

(** Every iteration ends in one of the five ways of [Step]. *)
Lemma iteration_step (attempt : Z) (w : World) :
  Step self message max_retries attempt w
    (fst (iteration attempt w)) (snd (iteration attempt w)).
Proof.
  destruct (next_result w) as [f|r] eqn:H.
  { destruct (iteration_network_error attempt w f H) as (level & msg & ->).
    destruct (unprintable [Num (attempt + 1); Num max_retries]) eqn:P.
    - cbn [fst snd]. apply (step_escape _ _ _ _ _ _ []).
      apply escape_numbered; [left; now exists f|].
      now apply unprintable_numbered.
    - apply (fall_through_failed attempt w [Log level msg]); auto.
      now rewrite H. }
  destruct (is_error_status (status_code r)) eqn:E.
  - pose proof (error_status_not_accepted r E) as NA.
    destruct (Z.eq_dec (status_code r) 429) as [S|S].
    + destruct (retry_after_secs r) as [secs|] eqn:R.
      * destruct (refused (reading w) secs) as [e|] eqn:P.
        -- rewrite (iteration_wait_refused attempt w r secs e H S R P).
           cbn [fst snd]. apply step_escape.
           apply (escape_wait _ _ _ _ _ r secs); try assumption.
           now apply refused_spec.
        -- rewrite (iteration_rate_limited attempt w r secs H S R P).
           apply fall_through_rate_limited; try assumption.
           apply accepted_spec in P. lia.
      * destruct (iteration_hint_refused attempt w r H S R) as (text & ->).
        cbn [fst snd]. apply step_escape.
        now apply (escape_hint _ _ _ _ _ r).
    + destruct (Z.eq_dec (status_code r) 401) as [S1|S1];
        [|destruct (Z.eq_dec (status_code r) 400) as [S2|S2]].
      * destruct (iteration_fatal attempt w r H (or_introl S1)) as (msg & ->).
        cbn [fst snd]. apply (step_fatal _ _ _ _ _ r [Log ERROR msg]); auto.
      * destruct (iteration_fatal attempt w r H (or_intror S2)) as (msg & ->).
        cbn [fst snd]. apply (step_fatal _ _ _ _ _ r [Log ERROR msg]); auto.
      * destruct (iteration_other_error attempt w r H E S S1 S2) as (msg & ->).
        destruct (Z.ltb_spec attempt (max_retries - 1)).
        -- apply (fall_through_failed attempt w [Log ERROR msg]); auto.
           now rewrite H.
        -- cbn [fst snd].
           apply (step_fatal _ _ _ _ _ r [Log ERROR msg]); auto.
  - destruct (send_request_reads w r H E) as [[A R]|[A R]].
    + rewrite iteration_success by (now rewrite H). cbn [fst snd].
      apply step_success. now rewrite H.
    + destruct R
        as [(d & R)|[(text & B & R)|[(v & text & B & T & R)|(e & B & R)]]].
      * rewrite (iteration_falls attempt w
                   (extend [the_post; Log ERROR [Lit "Telegram API error: ";
                                                 Val d]] w)).
        -- apply (fall_through_failed attempt w [Log ERROR _]); auto.
           now rewrite H.
        -- unfold try_except, bind. now rewrite R.
      * rewrite (iteration_not_json attempt w r text R).
        destruct (unprintable [Num (attempt + 1); Num max_retries]) eqn:P.
        -- cbn [fst snd]. apply (step_escape _ _ _ _ _ _ []).
           apply escape_numbered; [right; now exists r|].
           now apply unprintable_numbered.
        -- apply (fall_through_failed attempt w [Log ERROR _]); auto.
           now rewrite H.
      * unfold TelegramNotifier.iteration, try_except, bind. rewrite R.
        cbn [TelegramNotifier.handlers fst snd].
        apply (step_escape _ _ _ _ _ _ []).
        now apply (escape_body _ _ _ _ _ r v).
      * unfold TelegramNotifier.iteration, try_except, bind. rewrite R.
        assert (N : TelegramNotifier.handlers self attempt max_retries
                      (loads_exn e) = None) by (now destruct e).
        rewrite N. cbn [fst snd].
        apply (step_escape _ _ _ _ _ _ []).
        now apply (escape_loads _ _ _ _ _ r).
Qed.

(** *** What an iteration leaves behind *)

Lemma backoff_posts (attempt : Z) : posts (backoff attempt max_retries) = 0%nat.
Proof. unfold backoff. now destruct (attempt <? max_retries - 1). Qed.

Lemma backoff_sleeps (attempt : Z) :
  sleeps (backoff attempt max_retries)
  = if attempt <? max_retries - 1 then [2 ^ attempt] else [].
Proof. unfold backoff. now destruct (attempt <? max_retries - 1). Qed.

Lemma posts_the_post (evs : list Event) :
  posts (the_post :: evs) = S (posts evs).
Proof. reflexivity. Qed.

Lemma escape_posts (attempt : Z) (w : World) (e : Exn) (evs : list Event) :
  Escape self message max_retries attempt w e evs -> posts evs = 0%nat.
Proof.
  intros [r text H S R | r secs e' H S R P | r v text H E B T | r e' H E B
          | C U | evs' A Q Sl L U | evs' e' A Q Sl L B];
    try reflexivity; [assumption|].
  now rewrite posts_app, Q.
Qed.

Lemma escape_not_accepted (attempt : Z) (w : World) (e : Exn)
    (evs : list Event) :
  Escape self message max_retries attempt w e evs ->
  accepts (next_result w) = false.
Proof.
  intros [r text H S R | r secs e' H S R P | r v text H E B T | r e' H E B
          | [(f & H)|(r & H & E & B)] U | evs' A Q Sl L U
          | evs' e' A Q Sl L B]; try assumption; rewrite H.
  - apply error_status_not_accepted. now rewrite S.
  - apply error_status_not_accepted. now rewrite S.
  - unfold accepts. rewrite E, B. now destruct v.
  - unfold accepts. now rewrite E, B.
  - reflexivity.
  - unfold accepts. now rewrite E, B.
Qed.

Lemma step_frame (attempt : Z) (w w' : World) (res : Outcome (option bool)) :
  Step self message max_retries attempt w res w' ->
  exists evs, w' = extend (the_post :: evs) w /\ posts evs = 0%nat.
Proof.
  intros [A | evs A [_ Q] | r secs evs H S R P [_ Q] | r evs H E S F [_ Q]
          | e evs Esc].
  - eexists; split; [reflexivity|reflexivity].
  - eexists; split; [reflexivity|]. now rewrite posts_app, Q, backoff_posts.
  - eexists; split; [reflexivity|].
    rewrite posts_app, Q. cbn. apply backoff_posts.
  - eexists; split; [reflexivity|assumption].
  - eexists; split; [reflexivity|]. exact (escape_posts _ _ _ _ Esc).
Qed.

Lemma step_not_accepted (attempt : Z) (w w' : World) (res : Outcome (option bool)) :
  Step self message max_retries attempt w res w' ->
  res <> Return (Some true) ->
  accepts (next_result w) = false.
Proof.
  intros [A | evs A _ | r secs evs H S R P _ | r evs H E S F _ | e evs Esc] N;
    try assumption; try congruence.
  - rewrite H. apply error_status_not_accepted. now rewrite S.
  - rewrite H. now apply error_status_not_accepted.
  - exact (escape_not_accepted _ _ _ _ Esc).
Qed.

Lemma posts_extend (evs : list Event) (w : World) :
  posts (trace (extend evs w)) = (posts (trace w) + posts evs)%nat.
Proof. unfold extend; cbn [trace]. apply posts_app. Qed.

Lemma sleeps_extend (evs : list Event) (w : World) :
  sleeps (trace (extend evs w)) = sleeps (trace w) ++ sleeps evs.
Proof. unfold extend; cbn [trace]. apply sleeps_app. Qed.

(** *** The loop *)

Lemma loop_exhausted (attempt : Z) (w : World) :
  loop 0 attempt w
  = if UNPRINTABLE <=? Z.abs max_retries
    then (Raise too_many_digits, w)
    else (Return false, extend [exhausted_log] w).
Proof.
  cbn [TelegramNotifier.loop]. unfold bind, log.
  cbn [unprintable existsb orb]. rewrite orb_false_r.
  now destruct (UNPRINTABLE <=? Z.abs max_retries).
Qed.

Lemma loop_step (n : nat) (attempt : Z) (w : World) :
  loop (S n) attempt w
  = match iteration attempt w with
    | (Return (Some b), w1) => (Return b, w1)
    | (Return None, w1) => loop n (attempt + 1) w1
    | (Raise e, w1) => (Raise e, w1)
    end.
Proof.
  cbn [TelegramNotifier.loop]. unfold bind.
  now destruct (iteration attempt w) as [[[b|]|e] w1].
Qed.

Lemma step_success_inv (attempt : Z) (w w' : World) :
  Step self message max_retries attempt w (Return (Some true)) w' ->
  accepts (next_result w) = true /\ w' = extend [the_post; success_log] w.
Proof. intro St. inversion St. now split. Qed.

Lemma loop_spec (n : nat) :
  forall (attempt : Z) (w : World),
    let res := loop n attempt w in
    let first := posts (trace w) in
    let last := posts (trace (snd res)) in
    net (snd res) = net w
    /\ (first <= last <= first + n)%nat
    /\ (fst res = Return true ->
        exists evs,
          trace (snd res) = trace w ++ evs ++ [the_post; success_log])
    /\ (forall k, (first <= k < last)%nat ->
        accepts (net w k) = true ->
        fst res = Return true /\ S k = last)
    /\ (fst res = Return true ->
        (first < last)%nat /\ accepts (net w (last - 1)) = true).
Proof.
  induction n as [|n IH]; intros attempt w.
  - rewrite loop_exhausted.
    destruct (UNPRINTABLE <=? Z.abs max_retries); cbn [fst snd];
      rewrite ?posts_extend; change (posts [exhausted_log]) with 0%nat;
      (refine (conj _ (conj _ (conj _ (conj _ _))));
       [reflexivity | lia | discriminate | intros; lia | discriminate]).
  - cbn [TelegramNotifier.loop]. unfold bind.
    pose proof (iteration_step attempt w) as St.
    destruct (iteration attempt w) as [res1 w1]. cbn [fst snd] in St.
    assert (P1 : posts (trace w1) = S (posts (trace w))).
    { destruct (step_frame _ _ _ _ St) as (evs1 & -> & Q1).
      rewrite posts_extend, posts_the_post, Q1. lia. }
    assert (Only : res1 <> Return (Some true) ->
                   forall k, (posts (trace w) <= k < S (posts (trace w)))%nat ->
                             accepts (net w k) = true -> False).
    { intros N k Hk A. assert (k = posts (trace w)) by lia. subst k.
      pose proof (step_not_accepted _ _ _ _ St N) as NA.
      unfold next_result in NA. congruence. }
    destruct res1 as [[[|]|]|e].
    + (* return True *)
      destruct (step_success_inv _ _ _ St) as [A Hw].
      unfold ret. cbn [fst snd]. rewrite P1.
      refine (conj _ (conj _ (conj _ (conj _ _)))).
      * now rewrite Hw.
      * lia.
      * intros _. exists []. now rewrite Hw.
      * intros k Hk _. split; [reflexivity|lia].
      * intros _. split; [lia|].
        replace (S (posts (trace w)) - 1)%nat with (posts (trace w)) by lia.
        exact A.
    + (* return False *)
      destruct (step_frame _ _ _ _ St) as (evs1 & -> & Q1).
      unfold ret. cbn [fst snd]. rewrite P1.
      refine (conj _ (conj _ (conj _ (conj _ _))));
        [reflexivity | lia | discriminate | | discriminate].
      intros k Hk A. exfalso. apply (Only ltac:(discriminate) k Hk A).
    + (* the loop goes on *)
      destruct (step_frame _ _ _ _ St) as (evs1 & -> & Q1).
      specialize (IH (attempt + 1) (extend (the_post :: evs1) w)).
      cbv zeta in IH. rewrite P1 in IH.
      change (net (extend (the_post :: evs1) w)) with (net w) in IH.
      destruct IH as (N & B & T & Fst & Lst).
      refine (conj _ (conj _ (conj _ (conj _ _)))).
      * exact N.
      * lia.
      * intro R. destruct (T R) as (evs & ->). cbn [extend trace].
        exists ((the_post :: evs1) ++ evs). now rewrite <- !app_assoc.
      * intros k Hk A.
        destruct (Nat.eq_dec k (posts (trace w))) as [->|].
        -- exfalso. apply (Only ltac:(discriminate) (posts (trace w))); [lia|exact A].
        -- apply (Fst k); [lia|assumption].
      * intro R. destruct (Lst R) as [L A]. split; [lia|exact A].
    + (* an exception escapes *)
      destruct (step_frame _ _ _ _ St) as (evs1 & -> & Q1).
      cbn [fst snd]. rewrite P1.
      refine (conj _ (conj _ (conj _ (conj _ _))));
        [reflexivity | lia | discriminate | | discriminate].
      intros k Hk A. exfalso. apply (Only ltac:(discriminate) k Hk A).
Qed.

(** *** Iterations reached during a call *)

Abbreviation Reached := (Reached self message max_retries).

Lemma reached_bounds (w0 w : World) (attempt : Z) :
  Reached w0 attempt w -> 0 <= attempt < max_retries.
Proof. induction 1; lia. Qed.

(** From a reached iteration on, the call is the rest of the loop. *)
Lemma reached_run (w0 w : World) (attempt : Z) :
  Reached w0 attempt w ->
  send_message w0 = loop (Z.to_nat (max_retries - attempt)) attempt w.
Proof.
  induction 1 as [|attempt w w' R IH It B].
  - unfold TelegramNotifier.send_message. now rewrite Z.sub_0_r.
  - rewrite IH. pose proof (reached_bounds _ _ _ R).
    replace (Z.to_nat (max_retries - attempt))
      with (S (Z.to_nat (max_retries - (attempt + 1)))) by lia.
    cbn [TelegramNotifier.loop]. unfold bind. now rewrite It.
Qed.

Lemma reached_posts (w0 w : World) (attempt : Z) :
  Reached w0 attempt w ->
  net w = net w0
  /\ posts (trace w) = (posts (trace w0) + Z.to_nat attempt)%nat.
Proof.
  induction 1 as [|attempt w w' R [N P] It B].
  - split; [reflexivity|cbn; lia].
  - pose proof (reached_bounds _ _ _ R).
    pose proof (iteration_step attempt w) as St.
    rewrite It in St. cbn [fst snd] in St.
    destruct (step_frame _ _ _ _ St) as (evs & -> & Q).
    split; [exact N|].
    rewrite posts_extend, posts_the_post, Q, P. lia.
Qed.

(** An iteration that is followed by another one has slept its back-off
    sleep, which [time.sleep] takes up to the attempt of index 33 only. *)
Lemma iteration_continues (attempt : Z) (w w' : World) :
  iteration attempt w = (Return None, w') ->
  attempt < max_retries - 1 ->
  2 ^ attempt <= 9223372036.
Proof.
  unfold TelegramNotifier.iteration, bind at 1.
  destruct (try_except _ _ w) as [[[b|]|e] w1]; [discriminate| |discriminate].
  rewrite wait_before_retry_spec. intros It L.
  destruct (fall_through_cases attempt max_retries w1) as [(_ & _ & E)|E];
    rewrite E in It; [discriminate|].
  unfold backoff_refusal in It.
  destruct (Z.ltb_spec attempt (max_retries - 1)); [|lia].
  destruct (refused (reading w1) (2 ^ attempt)) eqn:Rf; [discriminate|].
  apply accepted_spec in Rf. lia.
Qed.

Lemma reached_small (w0 w : World) (attempt : Z) :
  Reached w0 attempt w -> attempt <= 34.
Proof.
  induction 1 as [|attempt w w' R IH It B]; [lia|].
  pose proof (reached_bounds _ _ _ R).
  pose proof (iteration_continues attempt w w' It ltac:(lia)) as P.
  apply small_power in P. lia.
Qed.

(** The last iteration of the range, when it falls through, ends the call
    with [False]. *)
Lemma last_iteration_falls_through (w0 w w' : World) (attempt : Z) :
  Reached w0 attempt w ->
  attempt + 1 = max_retries ->
  iteration attempt w = (Return None, w') ->
  send_message w0 = (Return false, extend [exhausted_log] w').
Proof.
  intros R L It. rewrite (reached_run _ _ _ R).
  pose proof (reached_bounds _ _ _ R). pose proof (reached_small _ _ _ R).
  replace (Z.to_nat (max_retries - attempt)) with 1%nat by lia.
  rewrite loop_step, It, loop_exhausted.
  now rewrite (printable_sleep max_retries) by lia.
Qed.

Lemma last_iteration_returns (w0 w w' : World) (attempt : Z) (b : bool) :
  Reached w0 attempt w ->
  iteration attempt w = (Return (Some b), w') ->
  send_message w0 = (Return b, w').
Proof.
  intros R It. rewrite (reached_run _ _ _ R).
  pose proof (reached_bounds _ _ _ R).
  replace (Z.to_nat (max_retries - attempt))
    with (S (Z.to_nat (max_retries - (attempt + 1)))) by lia.
  cbn [TelegramNotifier.loop]. unfold bind. now rewrite It.
Qed.

(** The trace of a call only grows, and the events of every reached
    iteration are part of it. *)
Lemma loop_extends (n : nat) :
  forall (attempt : Z) (w : World),
    exists evs, trace (snd (loop n attempt w)) = trace w ++ evs.
Proof.
  induction n as [|n IH]; intros attempt w.
  - rewrite loop_exhausted.
    destruct (UNPRINTABLE <=? Z.abs max_retries);
      [exists []; cbn [snd]; now rewrite app_nil_r|now exists [exhausted_log]].
  - cbn [TelegramNotifier.loop]. unfold bind.
    pose proof (iteration_step attempt w) as St.
    destruct (iteration attempt w) as [res1 w1]. cbn [fst snd] in St.
    destruct (step_frame _ _ _ _ St) as (evs1 & -> & _).
    destruct res1 as [[b|]|e]; cbn [ret fst snd extend trace];
      try (now eexists).
    destruct (IH (attempt + 1) (extend (the_post :: evs1) w)) as (evs & ->).
    cbn [extend trace]. exists ((the_post :: evs1) ++ evs).
    now rewrite <- app_assoc.
Qed.

Lemma iteration_in_call (w0 w : World) (attempt : Z) :
  Reached w0 attempt w ->
  exists rest,
    trace (snd (send_message w0)) = trace (snd (iteration attempt w)) ++ rest.
Proof.
  intro R. rewrite (reached_run _ _ _ R).
  pose proof (reached_bounds _ _ _ R).
  replace (Z.to_nat (max_retries - attempt))
    with (S (Z.to_nat (max_retries - (attempt + 1)))) by lia.
  cbn [TelegramNotifier.loop]. unfold bind.
  destruct (iteration attempt w) as [[[b|]|e] w1]; cbn [ret fst snd];
    try (exists []; now rewrite app_nil_r).
  apply loop_extends.
Qed.

End Notifier.

(* ===================================================================== *)
(** ** The claims about [send_message] *)
(* ===================================================================== *)

(** C1, as stated, fails.  With [max_retries = 2] and a server that answers
    every request with 429 and no [Retry-After] header, the call sleeps the
    5 seconds of the hint, then the back-off second of attempt 0, then 5
    seconds again, and returns [False] after two requests: the rate-limited
    attempt is followed by an exponential back-off sleep, and it uses up one
    of the [max_retries] attempts (the second 429 is not retried). *)
Lemma rate_limit_uses_backoff_and_budget :
  let res := TelegramNotifier.send_message bot "hi" 2
               (fresh (fun _ => status_only 429)) in
  fst res = Return false
  /\ sleeps (trace (snd res)) = [5; 1; 5]
  /\ posts (trace (snd res)) = 2%nat.
Proof. vm_compute. repeat split. Qed.

(** C1, amended.  Whenever an attempt of a call receives HTTP 429 whose
    [Retry-After] hint is absent or a non-negative integer, and the clock
    leaves room for the sleeps ([time.sleep] takes at most 9223372036
    seconds, and the sleep must end within the range of the monotonic
    clock), the iteration logs the hint, sleeps exactly that many seconds (5
    without the header) and does not leave the method.  It is then treated
    like any other failed attempt: unless it was the last of the
    [max_retries] attempts, the back-off sleep of [2 ^ attempt] seconds
    follows and the next attempt begins; after the last attempt the call
    returns [False].  The events of the iteration stand in the trace of the
    call. *)
Theorem rate_limited_attempt
    (self : TelegramNotifier.t) (message : string) (max_retries : Z)
    (w0 w : World) (attempt : Z) (r : Response) (secs : Z) :
  Reached self message max_retries w0 attempt w ->
  next_result w = Responds r ->
  status_code r = 429 ->
  retry_after_secs r = Some secs ->
  0 <= secs ->
  room w secs ->
  (attempt + 1 < max_retries -> room w (2 ^ attempt)) ->
  let w' := extend (the_post self message :: rate_limit_log r :: Sleep secs
                      :: backoff attempt max_retries) w in
  TelegramNotifier.iteration self message max_retries attempt w
    = (Return None, w')
  /\ sleeps (trace w')
     = sleeps (trace w)
       ++ secs :: (if attempt <? max_retries - 1 then [2 ^ attempt] else [])
  /\ (attempt + 1 < max_retries ->
      Reached self message max_retries w0 (attempt + 1) w')
  /\ (attempt + 1 = max_retries ->
      TelegramNotifier.send_message self message max_retries w0
        = (Return false, extend [exhausted_log max_retries] w'))
  /\ exists rest,
      trace (snd (TelegramNotifier.send_message self message max_retries w0))
      = trace w' ++ rest.
Proof.
  intros R H S A P Room Back w'.
  pose proof (iteration_rate_limited self message max_retries attempt w r secs
                H S A (room_lets_sleep w secs secs _ Room ltac:(lia))) as It.
  rewrite fall_through_room in It by (intro; apply Back; lia).
  cbn [app] in It. fold w' in It.
  refine (conj It (conj _ (conj _ (conj _ _)))).
  - unfold w'. rewrite sleeps_extend. cbn [sleeps rate_limit_log].
    now rewrite backoff_sleeps.
  - intro B. now apply (reached_next _ _ _ _ attempt w w').
  - intro L. now apply (last_iteration_falls_through _ _ _ w0 w w' attempt).
  - destruct (iteration_in_call self message max_retries w0 w attempt R)
      as (rest & T).
    rewrite It in T. now exists rest.
Qed.

Lemma rate_limited_attempt_witness :
  TelegramNotifier.iteration bot "hi" 2 0 (fresh (fun _ => rate_limited "7"))
  = (Return None,
     extend (the_post bot "hi" :: rate_limit_log (mkResponse 429 (Some "7"%string) NotJSON)
               :: Sleep 7 :: backoff 0 2)
            (fresh (fun _ => rate_limited "7"))).
Proof.
  apply (rate_limited_attempt bot "hi" 2 (fresh (fun _ => rate_limited "7"))
           (fresh (fun _ => rate_limited "7")) 0
           (mkResponse 429 (Some "7"%string) NotJSON) 7).
  - apply reached_first. lia.
  - reflexivity.
  - reflexivity.
  - reflexivity.
  - lia.
  - split; [vm_compute; discriminate|intro k; vm_compute; discriminate].
  - intros _. split; [vm_compute; discriminate|intro k; vm_compute; discriminate].
Defined.

(** C2: the call can raise.  A 429 response whose [Retry-After] header is
    an HTTP date makes [int(retry_after)] raise [ValueError] inside the
    [except] clause, and nothing catches it. *)
Theorem send_message_raises_on_retry_after_date :
  fst (TelegramNotifier.send_message bot "hi" 3
         (fresh (fun _ => rate_limited "Wed, 21 Oct 2015 07:28:00 GMT")))
  = Raise (ValueError
             "invalid literal for int() with base 10: 'Wed, 21 Oct 2015 07:28:00 GMT'").
Proof. vm_compute. reflexivity. Qed.

(** C3, as stated, fails in the direction from [True] to a 2xx response with
    ["ok": true]: the call also returns [True] on a 304 response whose body
    has ["ok": true], because [raise_for_status] lets every status outside
    400..599 through, and on a 200 response whose body has ["ok": 1],
    because the flag is tested for truthiness. *)
Lemma send_message_true_without_2xx_ok_true :
  (fst (TelegramNotifier.send_message bot "hi" 3
          (fresh (fun _ => answer 304 [("ok"%string, JBool true)])))
   = Return true
   /\ ok_2xx (answer 304 [("ok"%string, JBool true)]) = false)
  /\
  (fst (TelegramNotifier.send_message bot "hi" 3
          (fresh (fun _ => answer 200 [("ok"%string, JNum 1)])))
   = Return true
   /\ ok_2xx (answer 200 [("ok"%string, JNum 1)]) = false).
Proof. vm_compute. repeat split. Qed.

(** C3, amended.  The requests of a call are the requests number
    [first], ..., [last - 1] of the process, at most [max_retries] of them;
    request [k] is the attempt of index [k - first] and receives [net w k].
    The call returns [True] if and only if one of its attempts received a
    response that [accepts] describes: a status outside 400..599 and a JSON
    object whose ["ok"] value is truthy.  Such an attempt is the last
    request of the call, and nothing follows it but the log record of the
    success. *)
Theorem send_message_true_iff_accepted
    (self : TelegramNotifier.t) (message : string) (max_retries : Z)
    (w : World) :
  let res := TelegramNotifier.send_message self message max_retries w in
  let first := posts (trace w) in
  let last := posts (trace (snd res)) in
  (first <= last <= first + Z.to_nat max_retries)%nat
  /\ (fst res = Return true <->
      exists k, (first <= k < last)%nat /\ accepts (net w k) = true)
  /\ (forall k, (first <= k < last)%nat -> accepts (net w k) = true ->
      S k = last
      /\ exists evs,
          trace (snd res)
          = trace w ++ evs ++ [the_post self message; success_log message]).
Proof.
  unfold TelegramNotifier.send_message.
  destruct (loop_spec self message max_retries (Z.to_nat max_retries) 0 w)
    as (_ & B & T & Fst & Lst).
  cbv zeta. refine (conj B (conj (conj _ _) _)).
  - intro R. destruct (Lst R) as [L A].
    exists (posts (trace (snd (TelegramNotifier.loop self message max_retries
                                   (Z.to_nat max_retries) 0 w))) - 1)%nat.
    split; [lia|exact A].
  - intros (k & Hk & A). now destruct (Fst k Hk A).
  - intros k Hk A. destruct (Fst k Hk A) as [R L]. split; [exact L|].
    exact (T R).
Qed.

(** C4, as stated, fails: the back-off wait before attempt 1 is one second,
    not [2 ^ 1], and the wait before attempt 2 is two seconds, not [2 ^ 2].
    Here every request times out and [max_retries = 3]. *)
Lemma backoff_before_attempt_one_is_one_second :
  trace (snd (TelegramNotifier.send_message bot "hi" 3
                (fresh (fun _ => Fails (TimedOut "read timed out")))))
  = [ the_post bot "hi";
      Log WARNING [Lit "Timeout on attempt "; Num 1; Lit "/"; Num 3];
      Log INFO [Lit "Retrying in "; Num 1; Lit " seconds..."];
      Sleep 1;
      the_post bot "hi";
      Log WARNING [Lit "Timeout on attempt "; Num 2; Lit "/"; Num 3];
      Log INFO [Lit "Retrying in "; Num 2; Lit " seconds..."];
      Sleep 2;
      the_post bot "hi";
      Log WARNING [Lit "Timeout on attempt "; Num 3; Lit "/"; Num 3];
      exhausted_log 3 ].
Proof. vm_compute. reflexivity. Qed.

(** C4, amended.  When the attempt of index [attempt] fails and the attempt
    of index [attempt + 1] follows, the events between the two requests end
    with the back-off sleep of exactly [2 ^ attempt] seconds, announced by
    its log record.  The only other sleep between the two requests is the
    wait of a rate-limited response.  So the back-off wait before attempt
    [k >= 1] is [2 ^ (k - 1)] seconds, and there is none before attempt 0.
    The events stand in the trace of the call. *)
Theorem backoff_after_failed_attempt
    (self : TelegramNotifier.t) (message : string) (max_retries : Z)
    (w0 w w' : World) (attempt : Z) :
  Reached self message max_retries w0 attempt w ->
  attempt + 1 < max_retries ->
  TelegramNotifier.iteration self message max_retries attempt w
    = (Return None, w') ->
  Reached self message max_retries w0 (attempt + 1) w'
  /\ exists evs,
      w' = extend (the_post self message :: evs
                     ++ [Log INFO [Lit "Retrying in "; Num (2 ^ attempt);
                                   Lit " seconds..."];
                         Sleep (2 ^ attempt)]) w
      /\ posts evs = 0%nat
      /\ (sleeps evs = []
          \/ exists r secs,
               next_result w = Responds r /\ status_code r = 429
               /\ retry_after_secs r = Some secs /\ sleeps evs = [secs])
      /\ exists rest,
          trace (snd (TelegramNotifier.send_message self message max_retries
                        w0))
          = trace w' ++ rest.
Proof.
  intros R B It. split.
  { now apply (reached_next _ _ _ _ attempt w w'). }
  assert (In_call : exists rest,
             trace (snd (TelegramNotifier.send_message self message
                           max_retries w0))
             = trace w' ++ rest).
  { destruct (iteration_in_call self message max_retries w0 w attempt R)
      as (rest & T).
    rewrite It in T. now exists rest. }
  pose proof (iteration_step self message max_retries attempt w) as St.
  rewrite It in St. cbn [fst snd] in St.
  assert (Bk : backoff attempt max_retries
               = [Log INFO [Lit "Retrying in "; Num (2 ^ attempt);
                            Lit " seconds..."];
                  Sleep (2 ^ attempt)]).
  { unfold backoff.
    now replace (attempt <? max_retries - 1) with true
      by (symmetry; apply Z.ltb_lt; lia). }
  inversion St as [ | evs A [Sl Q] | r secs evs H S Ra P [Sl Q] | | ]; subst.
  - exists evs. rewrite Bk in *. auto.
  - exists (evs ++ [Sleep secs]). rewrite Bk in *. rewrite <- app_assoc.
    cbn [app]. split; [reflexivity|]. split; [|split; [|exact In_call]].
    + rewrite posts_app, Q. reflexivity.
    + right. exists r, secs. rewrite sleeps_app, Sl. auto.
Qed.

Lemma backoff_after_failed_attempt_witness :
  Reached bot "hi" 3 (fresh (fun _ => status_only 503)) (0 + 1)
    (extend (the_post bot "hi"
               :: Log ERROR [Lit "HTTP error: ";
                             Err (HTTPError "HTTP error status"
                                    (mkResponse 503 None NotJSON))]
               :: backoff 0 3)
            (fresh (fun _ => status_only 503))).
Proof.
  apply (backoff_after_failed_attempt bot "hi" 3
           (fresh (fun _ => status_only 503))
           (fresh (fun _ => status_only 503))).
  - apply reached_first. lia.
  - lia.
  - reflexivity.
Defined.

(** C5.  When the first attempt of a call receives HTTP 401 or HTTP 400, the
    call returns [False] after that one request and without any sleep. *)
Theorem fatal_status_single_attempt
    (self : TelegramNotifier.t) (message : string) (max_retries : Z)
    (w : World) (r : Response) :
  1 <= max_retries ->
  next_result w = Responds r ->
  status_code r = 401 \/ status_code r = 400 ->
  let res := TelegramNotifier.send_message self message max_retries w in
  fst res = Return false
  /\ posts (trace (snd res)) = S (posts (trace w))
  /\ sleeps (trace (snd res)) = sleeps (trace w)
  /\ exists msg,
      trace (snd res) = trace w ++ [the_post self message; Log ERROR msg].
Proof.
  intros B H S.
  destruct (iteration_fatal self message max_retries 0 w r H S) as (msg & It).
  assert (R : Reached self message max_retries w 0 w)
    by (apply reached_first; lia).
  cbv zeta.
  rewrite (last_iteration_returns self message max_retries w w _ 0 false R It).
  cbn [fst snd]. rewrite posts_extend, sleeps_extend. cbn.
  repeat split; [lia | apply app_nil_r | now exists msg].
Qed.

Lemma fatal_status_single_attempt_witness :
  let res := TelegramNotifier.send_message bot "hi" 3
               (fresh (fun _ => status_only 401)) in
  fst res = Return false
  /\ posts (trace (snd res)) = 1%nat
  /\ sleeps (trace (snd res)) = []
  /\ exists msg,
      trace (snd res) = [] ++ [the_post bot "hi"; Log ERROR msg].
Proof.
  apply (fatal_status_single_attempt bot "hi" 3
           (fresh (fun _ => status_only 401)) (mkResponse 401 None NotJSON)).
  - lia.
  - reflexivity.
  - left. reflexivity.
Defined.




(** C6, as stated, fails in its general part: 304 is a non-2xx status other
    than 429, 401 and 400, yet a 304 response is not treated as a failure to
    retry.  [raise_for_status] raises nothing for it, the body is read, and
    with ["ok": true] the first of three attempts returns [True]. *)
Lemma not_modified_response_not_retried :
  let res := TelegramNotifier.send_message bot "hi" 3
               (fresh (fun _ => answer 304 [("ok"%string, JBool true)])) in
  fst res = Return true
  /\ posts (trace (snd res)) = 1%nat
  /\ sleeps (trace (snd res)) = [].
Proof. vm_compute. repeat split. Qed.

(** C6, amended.  First, with [max_retries = 3] and HTTP 500 on all three
    attempts, the call returns [False] after three requests and exactly two
    sleeps, of 1 and 2 seconds; no sleep follows the last attempt.  Second,
    an attempt that receives an HTTP error status (400..599) other than 429,
    401 and 400 is retried after the back-off sleep of [2 ^ attempt] seconds
    unless it is the last of the [max_retries] attempts, in which case the
    call returns [False] at once.  Both suppose that the clock leaves room
    for the back-off sleeps, as it does for the two sleeps of the first part
    on any machine that has been up for less than 292 years. *)
Theorem server_error_retried_until_last_attempt
    (self : TelegramNotifier.t) (message : string) :
  (forall (w : World) (r0 r1 r2 : Response),
      net w (posts (trace w)) = Responds r0 ->
      net w (posts (trace w) + 1)%nat = Responds r1 ->
      net w (posts (trace w) + 2)%nat = Responds r2 ->
      status_code r0 = 500 -> status_code r1 = 500 -> status_code r2 = 500 ->
      room w 2 ->
      let res := TelegramNotifier.send_message self message 3 w in
      fst res = Return false
      /\ posts (trace (snd res)) = (posts (trace w) + 3)%nat
      /\ sleeps (trace (snd res)) = sleeps (trace w) ++ [1; 2])
  /\
  (forall (max_retries : Z) (w0 w : World) (attempt : Z) (r : Response),
      Reached self message max_retries w0 attempt w ->
      next_result w = Responds r ->
      is_error_status (status_code r) = true ->
      status_code r <> 429 -> status_code r <> 401 -> status_code r <> 400 ->
      exists msg,
        (attempt + 1 < max_retries ->
         room w (2 ^ attempt) ->
         let w' := extend (the_post self message :: Log ERROR msg
                             :: backoff attempt max_retries) w in
         TelegramNotifier.iteration self message max_retries attempt w
           = (Return None, w')
         /\ sleeps (trace w') = sleeps (trace w) ++ [2 ^ attempt]
         /\ Reached self message max_retries w0 (attempt + 1) w')
        /\ (attempt + 1 = max_retries ->
            TelegramNotifier.send_message self message max_retries w0
              = (Return false,
                 extend [the_post self message; Log ERROR msg] w))).
Proof.
  assert (General :
    forall (max_retries : Z) (w0 w : World) (attempt : Z) (r : Response),
      Reached self message max_retries w0 attempt w ->
      next_result w = Responds r ->
      is_error_status (status_code r) = true ->
      status_code r <> 429 -> status_code r <> 401 -> status_code r <> 400 ->
      exists msg,
        (attempt + 1 < max_retries ->
         room w (2 ^ attempt) ->
         let w' := extend (the_post self message :: Log ERROR msg
                             :: backoff attempt max_retries) w in
         TelegramNotifier.iteration self message max_retries attempt w
           = (Return None, w')
         /\ sleeps (trace w') = sleeps (trace w) ++ [2 ^ attempt]
         /\ Reached self message max_retries w0 (attempt + 1) w')
        /\ (attempt + 1 = max_retries ->
            TelegramNotifier.send_message self message max_retries w0
              = (Return false,
                 extend [the_post self message; Log ERROR msg] w))).
  { intros max_retries w0 w attempt r R H E S1 S2 S3.
    destruct (iteration_other_error self message max_retries attempt w r
                H E S1 S2 S3) as (msg & It).
    exists msg. split.
    - intros B Room w'.
      replace (attempt <? max_retries - 1) with true in It
        by (symmetry; apply Z.ltb_lt; lia).
      rewrite fall_through_room in It by (intros _; exact Room).
      cbn [app] in It. fold w' in It. refine (conj It (conj _ _)).
      + unfold w'. rewrite sleeps_extend. cbn [sleeps].
        rewrite backoff_sleeps.
        now replace (attempt <? max_retries - 1) with true
          by (symmetry; apply Z.ltb_lt; lia).
      + now apply (reached_next _ _ _ _ attempt w w').
    - intro L.
      replace (attempt <? max_retries - 1) with false in It
        by (symmetry; apply Z.ltb_ge; lia).
      now apply (last_iteration_returns _ _ _ w0 w _ attempt false). }
  split; [|exact General].
  intros w r0 r1 r2 H0 H1 H2 S0 S1 S2 Room.
  assert (E : forall r, status_code r = 500 ->
                        is_error_status (status_code r) = true
                        /\ status_code r <> 429 /\ status_code r <> 401
                        /\ status_code r <> 400).
  { intros r ->. repeat split; discriminate. }
  assert (R0 : Reached self message 3 w 0 w) by (apply reached_first; lia).
  destruct (E r0 S0) as (E0 & A0 & B0 & C0).
  destruct (General 3 w w 0 r0 R0 H0 E0 A0 B0 C0) as (m0 & Go0 & _).
  destruct (Go0 ltac:(lia) (room_smaller w 2 (2 ^ 0) Room ltac:(cbn; lia)))
    as (_ & Sl0 & R1).
  pose proof (reached_posts _ _ _ _ _ _ R1) as [N1 P1].
  set (w1 := extend (the_post self message :: Log ERROR m0 :: backoff 0 3) w)
    in *.
  destruct (E r1 S1) as (E1 & A1 & B1 & C1).
  assert (H1' : next_result w1 = Responds r1).
  { unfold next_result. rewrite N1, P1. exact H1. }
  destruct (General 3 w w1 (0 + 1) r1 R1 H1' E1 A1 B1 C1) as (m1 & Go1 & _).
  destruct (Go1 ltac:(lia)
              (room_smaller w 2 (2 ^ (0 + 1)) Room ltac:(cbn; lia)))
    as (_ & Sl1 & R2).
  pose proof (reached_posts _ _ _ _ _ _ R2) as [N2 P2].
  set (w2 := extend (the_post self message :: Log ERROR m1
                       :: backoff (0 + 1) 3) w1) in *.
  destruct (E r2 S2) as (E2 & A2 & B2 & C2).
  assert (H2' : next_result w2 = Responds r2).
  { unfold next_result. rewrite N2, P2. exact H2. }
  destruct (General 3 w w2 (0 + 1 + 1) r2 R2 H2' E2 A2 B2 C2)
    as (m2 & _ & Stop).
  cbv zeta. rewrite (Stop ltac:(lia)). cbn [fst snd].
  rewrite posts_extend, sleeps_extend, P2, Sl1, Sl0. cbn [posts sleeps].
  repeat split.
  - cbn. lia.
  - rewrite app_nil_r, <- !app_assoc. reflexivity.
Qed.

Lemma server_error_retried_until_last_attempt_witness :
  (let res := TelegramNotifier.send_message bot "hi" 3
                (fresh (fun _ => status_only 500)) in
   fst res = Return false
   /\ posts (trace (snd res)) = (0 + 3)%nat
   /\ sleeps (trace (snd res)) = [] ++ [1; 2])
  /\
  (exists msg,
      TelegramNotifier.iteration bot "hi" 2 0
        (fresh (fun _ => status_only 502))
      = (Return None,
         extend (the_post bot "hi" :: Log ERROR msg :: backoff 0 2)
           (fresh (fun _ => status_only 502))))
  /\
  (exists msg,
      TelegramNotifier.send_message bot "hi" 1
        (fresh (fun _ => status_only 502))
      = (Return false,
         extend [the_post bot "hi"; Log ERROR msg]
           (fresh (fun _ => status_only 502)))).
Proof.
  split; [|split].
  - apply (proj1 (server_error_retried_until_last_attempt bot "hi")
             (fresh (fun _ => status_only 500))
             (mkResponse 500 None NotJSON) (mkResponse 500 None NotJSON)
             (mkResponse 500 None NotJSON));
      try reflexivity.
    split; [vm_compute; discriminate|intro k; vm_compute; discriminate].
  - destruct (proj2 (server_error_retried_until_last_attempt bot "hi")
                2 (fresh (fun _ => status_only 502))
                (fresh (fun _ => status_only 502)) 0
                (mkResponse 502 None NotJSON)
                (reached_first bot "hi" 2 _ ltac:(lia))
                eq_refl eq_refl ltac:(discriminate) ltac:(discriminate)
                ltac:(discriminate))
      as (msg & Go & _).
    exists msg. apply Go; [lia|].
    split; [vm_compute; discriminate|intro k; vm_compute; discriminate].
  - destruct (proj2 (server_error_retried_until_last_attempt bot "hi")
                1 (fresh (fun _ => status_only 502))
                (fresh (fun _ => status_only 502)) 0
                (mkResponse 502 None NotJSON)
                (reached_first bot "hi" 1 _ ltac:(lia))
                eq_refl eq_refl ltac:(discriminate) ltac:(discriminate)
                ltac:(discriminate))
      as (msg & _ & Last).
    exists msg. apply Last. reflexivity.
Defined.

(* ===================================================================== *)
(** ** The claim about [Config.validate] *)
(* ===================================================================== *)

Lemma py_not_is_missing (x : option string) : Config.py_not x = is_missing x.
Proof. now destruct x as [[|c s]|]. Qed.

(** C10.  [validate] raises [ValueError] exactly when a credential is absent
    or empty.  The message is one line per missing credential, the line of
    the token first, the lines joined by a line feed; each line names the
    environment variable and says that it is not set.  With both
    credentials non-empty [validate] raises nothing and logs the success.
    Replacing an empty credential by an absent one changes nothing. *)
Theorem validate_reports_missing (cls : Config.t) (w : World) :
  Config.validate cls w
  = match is_missing (Config.TELEGRAM_BOT_TOKEN cls),
          is_missing (Config.TELEGRAM_CHAT_ID cls) with
    | false, false =>
        (Return tt,
         extend [Log INFO [Lit "Configuration validated successfully"]] w)
    | true, false =>
        (Raise (ValueError
                  "TELEGRAM_BOT_TOKEN not set. Please add it to your .env file."),
         w)
    | false, true =>
        (Raise (ValueError
                  "TELEGRAM_CHAT_ID not set. Please add it to your .env file."),
         w)
    | true, true =>
        (Raise (ValueError
                  ("TELEGRAM_BOT_TOKEN not set. Please add it to your .env file."
                   ++ String "010"
                        "TELEGRAM_CHAT_ID not set. Please add it to your .env file.")),
         w)
    end
  /\ Config.validate
       (Config.mk (unset_if_empty (Config.TELEGRAM_BOT_TOKEN cls))
                  (unset_if_empty (Config.TELEGRAM_CHAT_ID cls))) w
     = Config.validate cls w
  /\ (missing cls = [] <->
      is_missing (Config.TELEGRAM_BOT_TOKEN cls) = false
      /\ is_missing (Config.TELEGRAM_CHAT_ID cls) = false).
Proof.
  destruct cls as [token chat]. unfold Config.validate, missing.
  cbn [Config.TELEGRAM_BOT_TOKEN Config.TELEGRAM_CHAT_ID].
  rewrite !py_not_is_missing.
  assert (U : forall x, is_missing (unset_if_empty x) = is_missing x).
  { intros [[|c s]|]; reflexivity. }
  rewrite !U.
  destruct (is_missing token), (is_missing chat); cbn;
    (split; [reflexivity | split; [reflexivity | ]]);
    split; try discriminate; try tauto; intros [? ?]; discriminate.
Qed.

(* ===================================================================== *)
(** ** The claims about the scheduler *)
(* ===================================================================== *)

Lemma loop_jobs (self : TelegramNotifier.t) (message : string)
    (max_retries : Z) (n : nat) :
  forall (attempt : Z) (w : World),
    jobs (snd (TelegramNotifier.loop self message max_retries n attempt w))
    = jobs w.
Proof.
  induction n as [|n IH]; intros attempt w.
  { rewrite loop_exhausted.
    now destruct (UNPRINTABLE <=? Z.abs max_retries). }
  cbn [TelegramNotifier.loop]. unfold bind.
  pose proof (iteration_step self message max_retries attempt w) as St.
  destruct (TelegramNotifier.iteration self message max_retries attempt w)
    as [res1 w1].
  cbn [fst snd] in St. destruct (step_frame _ _ _ _ _ _ _ St) as (evs & -> & _).
  destruct res1 as [[b|]|e]; cbn [ret fst snd]; try reflexivity.
  now rewrite IH.
Qed.

Lemma send_message_jobs (self : TelegramNotifier.t) (message : string)
    (max_retries : Z) (w : World) :
  jobs (snd (TelegramNotifier.send_message self message max_retries w))
  = jobs w.
Proof. apply loop_jobs. Qed.

Lemma replace_nth_found (i : nat) (job job' : Job) (js : list Job) :
  nth_error js i = Some job ->
  nth_error (Schedule.replace_nth i job' js) i = Some job'.
Proof.
  revert i. induction js as [|j js IH]; intros [|i] H; cbn in *;
    try discriminate; [reflexivity|]. now apply IH.
Qed.

Lemma advance_later (now : Z) (job : Job) :
  0 <= at_time job < Schedule.DAY ->
  now < next_run (Schedule.advance now job)
  /\ next_run (Schedule.advance now job) / Schedule.DAY = now / Schedule.DAY + 1
  /\ next_run (Schedule.advance now job) mod Schedule.DAY = at_time job.
Proof.
  unfold Schedule.advance, Schedule.DAY. cbn [next_run]. intro T.
  repeat split.
  - pose proof (Z.div_mod now 86400 ltac:(lia)).
    pose proof (Z.mod_pos_bound now 86400 ltac:(lia)). lia.
  - rewrite Z.div_add_l by lia. rewrite (Z.div_small (at_time job)) by lia. lia.
  - rewrite Z.add_comm, Z.mod_add by lia. apply Z.mod_small. lia.
Qed.

(** A job that fires at the instant [now] calls [send_message] once, with
    the default number of attempts.  When that call returns, [True] or
    [False], the outcome is logged (at level [ERROR] for a failure), nothing
    is sent again, and the job of the registry is rescheduled as the spec
    says the [schedule] package does it: its next fire instant is strictly
    later than [now], on the calendar day after the day of [now], at the
    job's time of day. *)
Lemma fired_job_advances_one_day
    (self : WaterReminderScheduler.t) (now : Z) (i : nat) (job : Job)
    (w ws : World) (delivered : bool) :
  0 <= at_time job < Schedule.DAY ->
  nth_error (jobs w) i = Some job ->
  TelegramNotifier.send_message (WaterReminderScheduler.notifier self)
    (job_message job) TelegramNotifier.DEFAULT_MAX_RETRIES
    (extend [Log INFO [Lit "Sending reminder scheduled for ";
                       Str (job_time_str job)]] w)
  = (Return delivered, ws) ->
  exists w',
    Schedule.fire (WaterReminderScheduler._send_reminder self) now i job w
    = (Return tt, w')
    /\ trace w' = trace ws ++ [reminder_log delivered (job_time_str job)]
    /\ nth_error (jobs w') i = Some (Schedule.advance now job)
    /\ now < next_run (Schedule.advance now job)
    /\ next_run (Schedule.advance now job) / Schedule.DAY
       = now / Schedule.DAY + 1
    /\ next_run (Schedule.advance now job) mod Schedule.DAY = at_time job.
Proof.
  intros T J Send.
  pose proof (send_message_jobs (WaterReminderScheduler.notifier self)
                (job_message job) TelegramNotifier.DEFAULT_MAX_RETRIES
                (extend [Log INFO [Lit "Sending reminder scheduled for ";
                                   Str (job_time_str job)]] w)) as Js.
  rewrite Send in Js. cbn [snd extend jobs] in Js.
  unfold Schedule.fire, WaterReminderScheduler._send_reminder, bind, log.
  cbn [unprintable existsb orb]. rewrite emit_extend, Send.
  destruct (advance_later now job T) as (L & D & Md).
  destruct delivered; unfold Schedule.reschedule; eexists;
    (split; [reflexivity|]); cbn [trace jobs set_jobs emit reminder_log];
    rewrite Js; repeat split; try assumption;
    apply (replace_nth_found i job _ (jobs w) J).
Qed.

Lemma fired_job_advances_one_day_witness :
  exists w',
    Schedule.fire
      (WaterReminderScheduler._send_reminder (WaterReminderScheduler.mk bot))
      120000 0 (mkJob 32400 118800 "Drink water" "09:00")
      (mkWorld (fun _ => status_only 401) []
               [mkJob 32400 118800 "Drink water" "09:00"] (fun _ => HOUR))
    = (Return tt, w')
    /\ nth_error (jobs w') 0
       = Some (Schedule.advance 120000
                 (mkJob 32400 118800 "Drink water" "09:00"))
    /\ 120000 < next_run (Schedule.advance 120000
                            (mkJob 32400 118800 "Drink water" "09:00")).
Proof.
  destruct (fired_job_advances_one_day (WaterReminderScheduler.mk bot)
              120000 0 (mkJob 32400 118800 "Drink water" "09:00")
              (mkWorld (fun _ => status_only 401) []
                       [mkJob 32400 118800 "Drink water" "09:00"]
                       (fun _ => HOUR))
              _ false ltac:(cbn; unfold Schedule.DAY; lia) eq_refl eq_refl)
    as (w' & F & _ & J & L & _).
  exists w'. auto.
Defined.

(** C7: a delivery can raise, and then the job neither logs its outcome nor
    advances.  The job of 09:00 is due (its instant 118800 has passed at
    120000) and the server answers the request of the reminder with a 429
    whose [Retry-After] header is an HTTP date.  [_send_reminder] lets the
    [ValueError] of [send_message] through: it logs neither success nor
    failure, the exception leaves the job and the poll, and the job is left
    as it was, still due. *)
Theorem due_reminder_raises_on_retry_after_date :
  let job := mkJob 32400 118800 "Drink water" "09:00" in
  let self := WaterReminderScheduler.mk bot in
  let w := mkWorld (fun _ => rate_limited "Wed, 21 Oct 2015 07:28:00 GMT")
             [] [job] (fun _ => HOUR) in
  let e := ValueError
             "invalid literal for int() with base 10: 'Wed, 21 Oct 2015 07:28:00 GMT'" in
  let w' := extend
              [Log INFO [Lit "Sending reminder scheduled for "; Str "09:00"];
               the_post bot "Drink water";
               Log WARNING [Lit "Rate limited. Waiting ";
                            Str "Wed, 21 Oct 2015 07:28:00 GMT";
                            Lit " seconds..."]] w in
  WaterReminderScheduler._send_reminder self "Drink water" "09:00" w
  = (Raise e, w')
  /\ Schedule.fire (WaterReminderScheduler._send_reminder self) 120000 0 job w
     = (Raise e, w')
  /\ WaterReminderScheduler.run_pending self 120000 w = (Raise e, w')
  /\ jobs w' = [job]
  /\ next_run job <= 120000.
Proof. vm_compute. repeat split; discriminate. Qed.

Lemma earliest_none (js : list Job) : Schedule.earliest js = None -> js = [].
Proof.
  destruct js as [|j js]; [reflexivity|]. cbn.
  destruct (Schedule.earliest js); discriminate.
Qed.

Lemma earliest_is_minimum (js : list Job) (instant : Z) :
  Schedule.earliest js = Some instant ->
  (exists job, In job js /\ next_run job = instant)
  /\ (forall job, In job js -> instant <= next_run job).
Proof.
  revert instant. induction js as [|j js IH]; intros instant H.
  - discriminate.
  - cbn in H. destruct (Schedule.earliest js) as [t|] eqn:E.
    + injection H as <-. destruct (IH t eq_refl) as [(job & I & N) Min].
      split.
      * destruct (Z.min_spec (next_run j) t) as [[_ ->]|[_ ->]].
        -- exists j. split; [now left|reflexivity].
        -- exists job. split; [now right|exact N].
      * intros job' [<-|I']; [lia|]. specialize (Min job' I'). lia.
    + injection H as <-. rewrite (earliest_none js E). split.
      * exists j. split; [now left|reflexivity].
      * intros job' [<-|[]]. lia.
Qed.

(** C8.  On an empty registry [get_next_reminder] returns the sentinel
    ["No reminders scheduled"].  Otherwise it returns ["Next reminder at "]
    followed by the hour and the minute, of two decimal digits each and
    separated by a colon, of an instant that is the next fire instant of a
    job and is not later than the next fire instant of any job.  The world
    is left as it was. *)
Theorem next_reminder_names_soonest
    (self : WaterReminderScheduler.t) (w : World) :
  match jobs w with
  | [] =>
      WaterReminderScheduler.get_next_reminder self w
      = (Return "No reminders scheduled"%string, w)
  | _ :: _ =>
      exists instant,
        (exists job, In job (jobs w) /\ next_run job = instant)
        /\ (forall job, In job (jobs w) -> instant <= next_run job)
        /\ let hour := instant mod 86400 / 3600 in
           let minute := instant mod 3600 / 60 in
           WaterReminderScheduler.get_next_reminder self w
           = (Return
                ("Next reminder at "
                 ++ String (ascii_of_nat (48 + Z.to_nat (hour / 10)))
                      (String (ascii_of_nat (48 + Z.to_nat (hour mod 10)))
                         (String ":"
                            (String (ascii_of_nat (48 + Z.to_nat (minute / 10)))
                               (String
                                  (ascii_of_nat (48 + Z.to_nat (minute mod 10)))
                                  EmptyString)))))%string,
              w)
  end.
Proof.
  unfold WaterReminderScheduler.get_next_reminder, bind, Schedule.next_run.
  destruct (jobs w) as [|j js] eqn:J; [reflexivity|].
  destruct (Schedule.earliest (j :: js)) as [instant|] eqn:E.
  - exists instant.
    destruct (earliest_is_minimum _ _ E) as [Is Min].
    refine (conj Is (conj Min _)). reflexivity.
  - apply earliest_none in E. discriminate.
Qed.

(* ===================================================================== *)
(** ** Further properties *)
(* ===================================================================== *)







(** Two connection failures followed by an accepted response, with
    [max_retries = 3]: the call returns [True] after three requests and
    exactly two sleeps, of 1 and 2 seconds, which the clock must leave room
    for. *)
Theorem third_attempt_succeeds
    (self : TelegramNotifier.t) (message : string) (w : World)
    (text0 text1 : string) :
  net w (posts (trace w)) = Fails (ConnectionFailed text0) ->
  net w (posts (trace w) + 1)%nat = Fails (ConnectionFailed text1) ->
  accepts (net w (posts (trace w) + 2)%nat) = true ->
  room w 2 ->
  let res := TelegramNotifier.send_message self message 3 w in
  fst res = Return true
  /\ posts (trace (snd res)) = (posts (trace w) + 3)%nat
  /\ sleeps (trace (snd res)) = sleeps (trace w) ++ [1; 2].
Proof.
  intros H0 H1 H2 Room.
  assert (R0 : Reached self message 3 w 0 w) by (apply reached_first; lia).
  destruct (iteration_network_error self message 3 0 w _ H0)
    as (l0 & m0 & It0).
  rewrite fall_through_room in It0
    by (intros _; apply (room_smaller w 2); [exact Room|cbn; lia]).
  cbn [app] in It0.
  pose proof (reached_next _ _ _ _ _ _ _ R0 It0 ltac:(lia)) as R1.
  pose proof (reached_posts _ _ _ _ _ _ R1) as [N1 P1].
  set (w1 := extend (the_post self message :: Log l0 m0 :: backoff 0 3) w) in *.
  assert (H1' : next_result w1 = Fails (ConnectionFailed text1)).
  { unfold next_result. rewrite N1, P1. exact H1. }
  destruct (iteration_network_error self message 3 (0 + 1) w1 _ H1')
    as (l1 & m1 & It1).
  rewrite fall_through_room in It1
    by (intros _; apply (room_smaller w 2); [exact Room|cbn; lia]).
  cbn [app] in It1.
  pose proof (reached_next _ _ _ _ _ _ _ R1 It1 ltac:(lia)) as R2.
  pose proof (reached_posts _ _ _ _ _ _ R2) as [N2 P2].
  set (w2 := extend (the_post self message :: Log l1 m1 :: backoff (0 + 1) 3) w1)
    in *.
  assert (H2' : accepts (next_result w2) = true).
  { unfold next_result. rewrite N2, P2. exact H2. }
  pose proof (iteration_success self message 3 (0 + 1 + 1) w2 H2') as It2.
  cbv zeta.
  rewrite (last_iteration_returns self message 3 w w2 _ _ true R2 It2).
  cbn [fst snd]. rewrite posts_extend, sleeps_extend, P2.
  unfold w2. rewrite sleeps_extend. unfold w1. rewrite sleeps_extend.
  cbn. rewrite !app_nil_r, <- app_assoc. split; [reflexivity|].
  split; [lia|reflexivity].
Qed.

Lemma third_attempt_succeeds_witness :
  let res := TelegramNotifier.send_message bot "hi" 3
               (fresh (fun k =>
                         match k with
                         | 2%nat => answer 200 [("ok"%string, JBool true)]
                         | _ => Fails (ConnectionFailed "refused")
                         end)) in
  fst res = Return true
  /\ posts (trace (snd res)) = (0 + 3)%nat
  /\ sleeps (trace (snd res)) = [] ++ [1; 2].
Proof.
  apply (third_attempt_succeeds bot "hi"
           (fresh (fun k =>
                     match k with
                     | 2%nat => answer 200 [("ok"%string, JBool true)]
                     | _ => Fails (ConnectionFailed "refused")
                     end))
           "refused" "refused");
    try reflexivity.
  split; [vm_compute; discriminate|intro k; vm_compute; discriminate].
Defined.

Lemma parse_time_range (time_str : string) (t : Z) :
  Schedule.parse_time time_str = Some t -> 0 <= t < Schedule.DAY.
Proof.
  unfold Schedule.parse_time, Schedule.DAY.
  destruct (chars time_str) as [|h1 [|h2 [|sep [|m1 [|m2 [|x rest]]]]]];
    try discriminate.
  destruct (digit_of h1) as [a|] eqn:A; [|discriminate].
  destruct (digit_of h2) as [b|] eqn:B; [|discriminate].
  destruct (digit_of m1) as [c|] eqn:C; [|discriminate].
  destruct (digit_of m2) as [d|] eqn:D; [|discriminate].
  assert (Dg : forall ch v, digit_of ch = Some v -> 0 <= v <= 9).
  { intros ch v. unfold digit_of.
    destruct ((48 <=? nat_of_ascii ch)%nat && (nat_of_ascii ch <=? 57)%nat)
      eqn:R; [|discriminate].
    apply andb_prop in R as [L U].
    apply Nat.leb_le in L. apply Nat.leb_le in U.
    intro I. injection I as <-. lia. }
  apply Dg in A, B, C, D.
  destruct (Ascii.eqb sep ":" && (10 * a + b <? 24) && (10 * c + d <? 60))
    eqn:G; [|discriminate].
  apply andb_prop in G as [G M]. apply andb_prop in G as [_ Hh].
  apply Z.ltb_lt in M. apply Z.ltb_lt in Hh.
  intro I.
  assert (Eq : (10 * a + b) * 3600 + (10 * c + d) * 60 = t) by congruence.
  lia.
Qed.

(** Every job that [every_day_at_do] registers has a time of day, and the
    jobs registered before keep theirs. *)
Lemma registered_jobs_have_times_of_day
    (now : Z) (time_str message : string) (w : World) :
  Forall (fun job => 0 <= at_time job < Schedule.DAY) (jobs w) ->
  Forall (fun job => 0 <= at_time job < Schedule.DAY)
    (jobs (snd (Schedule.every_day_at_do now time_str message w))).
Proof.
  intro F. unfold Schedule.every_day_at_do.
  destruct (Schedule.parse_time time_str) as [t|] eqn:P; [|exact F].
  cbn [snd set_jobs jobs]. apply Forall_app. split; [exact F|].
  constructor; [|constructor]. cbn [at_time]. now apply parse_time_range in P.
Qed.

(** The registry after [__init__] on an empty registry: one job for each
    entry of the table. *)
Lemma init_registers_the_table (telegram_notifier : TelegramNotifier.t)
    (now : Z) (network : nat -> PostResult) :
  let res := WaterReminderScheduler.__init__ telegram_notifier now (fresh network) in
  fst res = Return (WaterReminderScheduler.mk telegram_notifier)
  /\ map at_time (jobs (snd res)) = [32400; 43200; 54000; 64800; 75600]
  /\ map job_time_str (jobs (snd res))
     = map fst WaterReminderScheduler.REMINDER_MESSAGES
  /\ map job_message (jobs (snd res))
     = map snd WaterReminderScheduler.REMINDER_MESSAGES.
Proof. cbv zeta. repeat split. Qed.

Lemma replace_nth_middle (pre rest : list Job) (job job' : Job) :
  Schedule.replace_nth (List.length pre) job' (pre ++ job :: rest)
  = pre ++ job' :: rest.
Proof.
  induction pre as [|p pre IH]; cbn; [reflexivity|]. now rewrite IH.
Qed.

Lemma send_reminder_jobs (self : WaterReminderScheduler.t)
    (message time_str : string) (w : World) :
  jobs (snd (WaterReminderScheduler._send_reminder self message time_str w))
  = jobs w.
Proof.
  unfold WaterReminderScheduler._send_reminder, bind, log. cbn [unprintable existsb orb].
  pose proof (send_message_jobs (WaterReminderScheduler.notifier self) message
                TelegramNotifier.DEFAULT_MAX_RETRIES
                (emit (Log INFO [Lit "Sending reminder scheduled for ";
                                 Str time_str]) w)) as Js.
  destruct (TelegramNotifier.send_message _ _ _ _) as [[[|]|e] w1];
    cbn [snd emit jobs] in *; exact Js.
Qed.

Lemma poll_registry (self : WaterReminderScheduler.t) (now : Z)
    (js : list Job) :
  forall (pre : list Job) (w w' : World),
    jobs w = pre ++ js ->
    Schedule.poll (WaterReminderScheduler._send_reminder self) now
      (List.length pre) js w = (Return tt, w') ->
    jobs w' = pre ++ map (after_poll now) js.
Proof.
  induction js as [|job rest IH]; intros pre w w' J P.
  - cbn in P. injection P as <-. exact J.
  - cbn [Schedule.poll] in P. unfold bind in P.
    cbn [map]. unfold after_poll at 1.
    destruct (next_run job <=? now).
    + unfold Schedule.fire, bind in P.
      pose proof (send_reminder_jobs self (job_message job) (job_time_str job)
                    w) as Js.
      destruct (WaterReminderScheduler._send_reminder self (job_message job)
                  (job_time_str job) w) as [[[]|e] w1]; [|discriminate].
      cbn [snd] in Js. unfold Schedule.reschedule in P.
      rewrite Js, J, replace_nth_middle in P.
      specialize (IH (pre ++ [Schedule.advance now job])
                     (set_jobs (pre ++ Schedule.advance now job :: rest) w1) w').
      rewrite length_app, Nat.add_1_r in IH. rewrite <- !app_assoc in IH.
      cbn [app] in IH. apply IH; [reflexivity|exact P].
    + unfold ret in P. specialize (IH (pre ++ [job]) w w').
      rewrite length_app, Nat.add_1_r in IH. rewrite <- !app_assoc in IH.
      cbn [app] in IH. apply IH; [exact J|exact P].
Qed.

(** After a poll that returns, every job whose instant had passed is due on
    the day after the poll, and the other jobs are as they were. *)
Lemma run_pending_registry (self : WaterReminderScheduler.t) (now : Z)
    (w w' : World) :
  WaterReminderScheduler.run_pending self now w = (Return tt, w') ->
  jobs w' = map (after_poll now) (jobs w).
Proof.
  unfold WaterReminderScheduler.run_pending, Schedule.run_pending.
  apply (poll_registry self now (jobs w) [] w w'). reflexivity.
Qed.

(* ===================================================================== *)
(** ** Further properties of [send_message] *)
(* ===================================================================== *)

Lemma no_post_when_none (evs : list Event) :
  posts evs = 0%nat -> forall e, In e evs -> is_post e = false.
Proof.
  unfold posts. induction evs as [|x evs IH]; intros Z0 e I; [destruct I|].
  cbn in Z0. destruct (is_post x) eqn:X; [discriminate|].
  destruct I as [<-|I]; [exact X|]. now apply IH.
Qed.

Lemma loop_requests (self : TelegramNotifier.t) (message : string)
    (max_retries : Z) (n : nat) :
  forall (attempt : Z) (w : World),
    exists evs,
      trace (snd (TelegramNotifier.loop self message max_retries n attempt w))
      = trace w ++ evs
      /\ forall e, In e evs -> is_post e = true -> e = the_post self message.
Proof.
  induction n as [|n IH]; intros attempt w.
  - rewrite loop_exhausted.
    destruct (UNPRINTABLE <=? Z.abs max_retries); cbn [snd].
    + exists []. split; [now rewrite app_nil_r|intros e []].
    + exists [exhausted_log max_retries]. split; [reflexivity|].
      intros e [<-|[]]. discriminate.
  - cbn [TelegramNotifier.loop]. unfold bind.
    pose proof (iteration_step self message max_retries attempt w) as St.
    destruct (TelegramNotifier.iteration self message max_retries attempt w)
      as [res1 w1].
    cbn [fst snd] in St.
    destruct (step_frame _ _ _ _ _ _ _ St) as (evs1 & -> & Q).
    assert (Here : forall e, In e (the_post self message :: evs1) ->
                             is_post e = true -> e = the_post self message).
    { intros e [<-|I] P; [reflexivity|].
      rewrite (no_post_when_none evs1 Q e I) in P. discriminate. }
    destruct res1 as [[b|]|e]; cbn [ret fst snd extend trace];
      try (exists (the_post self message :: evs1); split; [reflexivity|exact Here]).
    destruct (IH (attempt + 1) (extend (the_post self message :: evs1) w))
      as (evs & -> & Rest).
    exists ((the_post self message :: evs1) ++ evs). cbn [extend trace].
    split; [now rewrite <- app_assoc|].
    intros e I. apply in_app_or in I as [I|I]; [now apply Here|now apply Rest].
Qed.

(** Every request of a call goes to the [sendMessage] address built from the
    bot token, carries the chat identifier, the message handed to the call
    and the parse mode [HTML], and has a timeout of 10 seconds. *)
Theorem every_request_carries_the_message
    (bot_token chat_id message : string) (max_retries : Z) (w : World) :
  exists evs,
    trace (snd (TelegramNotifier.send_message
                  (TelegramNotifier.__init__ bot_token chat_id)
                  message max_retries w))
    = trace w ++ evs
    /\ forall url json timeout,
        In (Post url json timeout) evs ->
        url = ("https://api.telegram.org/bot" ++ bot_token ++ "/sendMessage")%string
        /\ json = mkPayload chat_id message "HTML"
        /\ timeout = 10.
Proof.
  destruct (loop_requests (TelegramNotifier.__init__ bot_token chat_id) message
              max_retries (Z.to_nat max_retries) 0 w) as (evs & T & Only).
  exists evs. split; [exact T|].
  intros url json timeout I.
  specialize (Only _ I eq_refl). injection Only as -> -> ->.
  repeat split.
Qed.

(** HTTP 401 and HTTP 400 end the call at whatever attempt they arrive: the
    call returns [False] with that request as its last event but for the
    log record; no sleep and no request follow. *)
Theorem fatal_status_ends_the_call
    (self : TelegramNotifier.t) (message : string) (max_retries : Z)
    (w0 w : World) (attempt : Z) (r : Response) :
  Reached self message max_retries w0 attempt w ->
  next_result w = Responds r ->
  status_code r = 401 \/ status_code r = 400 ->
  exists msg,
    TelegramNotifier.send_message self message max_retries w0
    = (Return false, extend [the_post self message; Log ERROR msg] w).
Proof.
  intros R H S.
  destruct (iteration_fatal self message max_retries attempt w r H S)
    as (msg & It).
  exists msg.
  exact (last_iteration_returns self message max_retries w0 w _ attempt false
           R It).
Qed.

Lemma fatal_status_ends_the_call_witness :
  exists msg,
    TelegramNotifier.send_message bot "hi" 3
      (fresh (fun k => match k with
                       | O => Fails (TimedOut "slow")
                       | _ => status_only 400
                       end))
    = (Return false,
       extend [the_post bot "hi"; Log ERROR msg]
         (extend (the_post bot "hi"
                    :: Log WARNING [Lit "Timeout on attempt "; Num 1; Lit "/";
                                    Num 3]
                    :: backoff 0 3)
            (fresh (fun k => match k with
                             | O => Fails (TimedOut "slow")
                             | _ => status_only 400
                             end)))).
Proof.
  apply (fatal_status_ends_the_call bot "hi" 3 _ _ (0 + 1)
           (mkResponse 400 None NotJSON)).
  - apply (reached_next bot "hi" 3 _ 0 _ _ (reached_first bot "hi" 3 _ ltac:(lia))).
    + reflexivity.
    + lia.
  - reflexivity.
  - right. reflexivity.
Defined.

(** *** Back-off without rate limiting *)







(** *** Attempts that all fail softly *)






(* ===================================================================== *)
(** ** The preview of a message *)
(* ===================================================================== *)

Lemma len_append (a b : string) :
  TelegramNotifier.len (a ++ b)
  = (TelegramNotifier.len a + TelegramNotifier.len b)%nat.
Proof.
  induction a as [|c a IH]; cbn; [reflexivity|]. rewrite IH. lia.
Qed.

Lemma len_take (s : string) :
  forall n,
    TelegramNotifier.len (TelegramNotifier.take n s)
    = Nat.min n (TelegramNotifier.len s).
Proof.
  induction s as [|c s IH]; intro n; cbn.
  - now rewrite Nat.min_0_r.
  - destruct (TelegramNotifier.is_continuation c) eqn:C.
    + cbn. rewrite C. apply IH.
    + destruct n as [|n]; cbn; [reflexivity|]. now rewrite C, IH.
Qed.

Lemma take_is_prefix (s : string) :
  forall n, exists rest, s = (TelegramNotifier.take n s ++ rest)%string.
Proof.
  induction s as [|c s IH]; intro n; cbn.
  - now exists EmptyString.
  - destruct (TelegramNotifier.is_continuation c).
    + destruct (IH n) as (rest & E). exists rest. cbn. now rewrite <- E.
    + destruct n as [|n].
      * now exists (String c s).
      * destruct (IH n) as (rest & E). exists rest. cbn. now rewrite <- E.
Qed.

(** The preview that [_send_request] logs is the message itself when the
    message has at most 50 characters; a longer message is cut to its first
    50 characters, followed by three dots.  A preview never has more than
    53 characters. *)
Theorem preview_is_bounded (message : string) :
  (TelegramNotifier.len (TelegramNotifier.preview message) <= 53)%nat
  /\ ((TelegramNotifier.len message <= 50)%nat ->
      TelegramNotifier.preview message = message)
  /\ ((50 < TelegramNotifier.len message)%nat ->
      exists head rest,
        message = (head ++ rest)%string
        /\ TelegramNotifier.len head = 50%nat
        /\ TelegramNotifier.preview message = (head ++ "...")%string).
Proof.
  unfold TelegramNotifier.preview.
  destruct (Nat.ltb_spec 50 (TelegramNotifier.len message)) as [L|L].
  - split; [|split].
    + rewrite len_append, len_take.
      change (TelegramNotifier.len "...") with 3%nat. lia.
    + lia.
    + intros _. destruct (take_is_prefix message 50) as (rest & E).
      exists (TelegramNotifier.take 50 message), rest.
      split; [exact E|]. split; [|reflexivity]. rewrite len_take. lia.
  - split; [lia|]. split; [reflexivity|lia].
Qed.

(* ===================================================================== *)
(** ** The constructor of the scheduler *)
(* ===================================================================== *)

Lemma schedule_items_spec (self : WaterReminderScheduler.t) (now : Z)
    (items : list (string * string)) :
  forall w,
    Forall (fun entry => Schedule.parse_time (fst entry) <> None) items ->
    WaterReminderScheduler.schedule_items self now items w
    = (Return tt,
       mkWorld (net w) (trace w ++ map scheduled_log items)
               (jobs w ++ flat_map (job_of_entry now) items) (monotonic w)).
Proof.
  induction items as [|[time_str message] items IH]; intros w F.
  - cbn. destruct w. cbn. now rewrite !app_nil_r.
  - inversion F as [|x l Px Fl]; subst. cbn [fst] in Px.
    cbn [WaterReminderScheduler.schedule_items]. unfold bind.
    unfold Schedule.every_day_at_do.
    change (flat_map (job_of_entry now) ((time_str, message) :: items))
      with (job_of_entry now (time_str, message)
              ++ flat_map (job_of_entry now) items).
    unfold job_of_entry at 1. cbn [fst snd map].
    destruct (Schedule.parse_time time_str) as [at_time|]; [|contradiction].
    unfold log. cbn [unprintable existsb orb]. rewrite (IH _ Fl).
    cbn [emit set_jobs net trace jobs monotonic scheduled_log fst].
    now rewrite <- !app_assoc.
Qed.

Lemma scheduler_init_spec
    (telegram_notifier : TelegramNotifier.t) (now : Z) (w : World) :
  WaterReminderScheduler.__init__ telegram_notifier now w
  = (Return (WaterReminderScheduler.mk telegram_notifier),
     mkWorld (net w)
       (trace w ++ map scheduled_log WaterReminderScheduler.REMINDER_MESSAGES)
       (jobs w
          ++ flat_map (job_of_entry now)
               WaterReminderScheduler.REMINDER_MESSAGES)
       (monotonic w)).
Proof.
  unfold WaterReminderScheduler.__init__,
    WaterReminderScheduler._setup_schedule, bind.
  rewrite schedule_items_spec; [reflexivity|].
  repeat constructor; discriminate.
Qed.

(** Constructing the scheduler appends one daily job for each entry of
    [REMINDER_MESSAGES] to the registry of the process, in the order of the
    table and each with its message; the jobs registered before stay.  It
    logs one record per entry, issues no request and raises nothing. *)
Theorem scheduler_registers_the_table
    (telegram_notifier : TelegramNotifier.t) (now : Z) (w : World) :
  let table := WaterReminderScheduler.REMINDER_MESSAGES in
  let added := flat_map (job_of_entry now) table in
  WaterReminderScheduler.__init__ telegram_notifier now w
  = (Return (WaterReminderScheduler.mk telegram_notifier),
     mkWorld (net w) (trace w ++ map scheduled_log table) (jobs w ++ added)
       (monotonic w))
  /\ map job_time_str added = map fst table
  /\ map job_message added = map snd table
  /\ map at_time added = [32400; 43200; 54000; 64800; 75600].
Proof.
  cbv zeta. split; [apply scheduler_init_spec|repeat split].
Qed.

(* ===================================================================== *)
(** ** The start of the application *)
(* ===================================================================== *)

Section StartProperties.

Variable run_main_loop : WaterReminderScheduler.t -> M unit.
Variable now : Z.

Abbreviation start := (WaterReminderApp.start run_main_loop now).
Abbreviation attempt_start := (WaterReminderApp.attempt_start run_main_loop now).

Lemma handlers_catch_everything (e : Exn) (w : World) :
  exists h evs,
    WaterReminderApp.handlers e = Some h /\ h w = (Return tt, extend evs w).
Proof.
  destruct e; cbn [WaterReminderApp.handlers]; eexists; eexists;
    (split; [reflexivity|]); unfold bind, log; cbn [unprintable existsb orb];
    rewrite !emit_extend, ?extend_extend; reflexivity.
Qed.

Lemma handlers_value_error (text : string) (w : World) :
  exists h,
    WaterReminderApp.handlers (ValueError text) = Some h
    /\ h w = (Return tt, extend (configuration_error_logs (ValueError text)) w).
Proof.
  eexists. split; [reflexivity|]. unfold bind, log. cbn [unprintable existsb orb].
  now rewrite !emit_extend, extend_extend.
Qed.

(** How [start] ends, given how its [try] block ends. *)
Lemma start_after_return (cls : Config.t) (w w1 : World) :
  attempt_start cls w = (Return tt, w1) ->
  start cls w = (Return tt, extend [stopped_log] w1).
Proof.
  intro A. unfold WaterReminderApp.start, WaterReminderApp.try_finally,
    try_except. now rewrite A.
Qed.

Lemma start_after_value_error (cls : Config.t) (w w1 : World) (text : string) :
  attempt_start cls w = (Raise (ValueError text), w1) ->
  start cls w
  = (Return tt,
     extend (configuration_error_logs (ValueError text) ++ [stopped_log]) w1).
Proof.
  intro A. unfold WaterReminderApp.start, WaterReminderApp.try_finally,
    try_except. rewrite A.
  destruct (handlers_value_error text w1) as (h & -> & ->).
  unfold log. cbn [unprintable existsb orb]. now rewrite emit_extend, extend_extend.
Qed.

Lemma start_after_other_error (cls : Config.t) (w w1 : World) (e : Exn) :
  attempt_start cls w = (Raise e, w1) ->
  (forall text, e <> ValueError text) ->
  start cls w
  = (Return tt, extend [unexpected_error_log e; stopped_log] w1).
Proof.
  intros A N. unfold WaterReminderApp.start, WaterReminderApp.try_finally,
    try_except. rewrite A.
  destruct e; try (now contradiction (N text));
    cbn [WaterReminderApp.handlers]; unfold log; cbn [unprintable existsb orb];
    now rewrite !emit_extend, extend_extend.
Qed.

Lemma validate_accepts (bot_token chat_id : string) (w : World) :
  bot_token <> EmptyString -> chat_id <> EmptyString ->
  Config.validate (Config.mk (Some bot_token) (Some chat_id)) w
  = (Return tt,
     extend [Log INFO [Lit "Configuration validated successfully"]] w).
Proof.
  intros T C. destruct bot_token; [contradiction|].
  destruct chat_id; [contradiction|]. reflexivity.
Qed.

(** With both credentials present, the [try] block of [start] is the
    connection test, begun after four log records, and what follows it. *)
Lemma attempt_start_connects (bot_token chat_id : string) (w : World) :
  bot_token <> EmptyString -> chat_id <> EmptyString ->
  attempt_start (Config.mk (Some bot_token) (Some chat_id)) w
  = match TelegramNotifier.test_connection
            (TelegramNotifier.__init__ bot_token chat_id)
            (extend before_connection_test w) with
    | (Return true, ws) =>
        (scheduler <-
           WaterReminderApp._initialize_scheduler
             (TelegramNotifier.__init__ bot_token chat_id) now ;;
         run_main_loop scheduler)
          (extend [Log INFO [Lit "Telegram connection test successful!"]] ws)
    | (Return false, ws) => (Return tt, extend connection_failed_logs ws)
    | (Raise e, ws) => (Raise e, ws)
    end.
Proof.
  intros T C.
  unfold WaterReminderApp.attempt_start,
    WaterReminderApp._validate_configuration, bind at 1 2.
  unfold log at 1. cbn [unprintable existsb orb].
  rewrite validate_accepts by assumption.
  cbn [WaterReminderApp.credentials Config.TELEGRAM_BOT_TOKEN
         Config.TELEGRAM_CHAT_ID].
  unfold bind at 1. unfold WaterReminderApp._initialize_notifier.
  unfold bind at 1. unfold log at 1. cbn [unprintable existsb orb].
  unfold bind at 1. unfold log at 1. cbn [unprintable existsb orb].
  unfold bind at 1.
  rewrite !emit_extend, !extend_extend. cbn [app].
  change [loading_log; Log INFO [Lit "Configuration validated successfully"];
          Log INFO [Lit "Initializing Telegram notifier..."];
          Log INFO [Lit "Testing Telegram connection..."]]
    with before_connection_test.
  destruct (TelegramNotifier.test_connection _ _) as [[[|]|e] ws].
  - unfold bind at 1. unfold log at 1. cbn [unprintable existsb orb]. unfold ret at 1.
    now rewrite emit_extend.
  - unfold bind, log, ret. cbn [unprintable existsb orb].
    now rewrite !emit_extend, extend_extend.
  - reflexivity.
Qed.

End StartProperties.

Lemma next_result_after_logs (evs : list Event) (w : World) :
  posts evs = 0%nat -> next_result (extend evs w) = next_result w.
Proof.
  intro Q. unfold next_result. rewrite posts_extend, Q, Nat.add_0_r.
  reflexivity.
Qed.

(** [start] lets no exception out, whatever the main loop does: it returns,
    and the last record it logs says that the bot has stopped. *)
Theorem start_absorbs_every_exception
    (run_main_loop : WaterReminderScheduler.t -> M unit) (now : Z)
    (cls : Config.t) (w : World) :
  let res := WaterReminderApp.start run_main_loop now cls w in
  fst res = Return tt
  /\ exists evs, trace (snd res) = evs ++ [stopped_log].
Proof.
  cbv zeta. unfold WaterReminderApp.start, WaterReminderApp.try_finally,
    try_except.
  destruct (WaterReminderApp.attempt_start run_main_loop now cls w)
    as [[[]|e] w1].
  - cbn. split; [reflexivity|]. now eexists.
  - destruct (handlers_catch_everything e w1) as (h & evs & -> & ->).
    cbn. split; [reflexivity|]. now eexists.
Qed.

(** With a credential absent or empty, [start] logs the configuration error
    with the message of [Config.validate], and stops: it issues no request,
    sleeps never, registers no job and does not run the main loop. *)
Theorem start_reports_missing_credentials
    (run_main_loop : WaterReminderScheduler.t -> M unit) (now : Z)
    (cls : Config.t) (w : World) :
  missing cls <> [] ->
  WaterReminderApp.start run_main_loop now cls w
  = (Return tt,
     extend
       (loading_log
          :: configuration_error_logs
               (ValueError
                  (String.concat Config.newline
                     (map Config.not_set (missing cls))))
          ++ [stopped_log])
       w).
Proof.
  intro Mi.
  assert (A : WaterReminderApp.attempt_start run_main_loop now cls w
              = (Raise (ValueError
                          (String.concat Config.newline
                             (map Config.not_set (missing cls)))),
                 extend [loading_log] w)).
  { unfold WaterReminderApp.attempt_start,
      WaterReminderApp._validate_configuration, bind, log.
    rewrite emit_extend. unfold Config.validate.
    rewrite !py_not_is_missing. unfold missing in *.
    destruct (is_missing (Config.TELEGRAM_BOT_TOKEN cls)),
      (is_missing (Config.TELEGRAM_CHAT_ID cls));
      try reflexivity. now contradiction Mi. }
  rewrite (start_after_value_error run_main_loop now cls w _ _ A).
  now rewrite extend_extend.
Qed.

Lemma start_reports_missing_credentials_witness :
  WaterReminderApp.start (fun _ => ret tt) 0
    (Config.mk (Some "123:abc"%string) (Some ""%string))
    (fresh (fun _ => status_only 200))
  = (Return tt,
     extend
       (loading_log
          :: configuration_error_logs
               (ValueError
                  (String.concat Config.newline
                     (map Config.not_set
                        (missing (Config.mk (Some "123:abc"%string)
                                            (Some ""%string))))))
          ++ [stopped_log])
       (fresh (fun _ => status_only 200))).
Proof.
  apply (start_reports_missing_credentials (fun _ => ret tt) 0
           (Config.mk (Some "123:abc"%string) (Some ""%string))
           (fresh (fun _ => status_only 200))).
  discriminate.
Defined.

(** When the connection test returns [False], [start] logs the two records
    of the failure and stops: the scheduler is not constructed (the
    registry is as it was) and the main loop does not run. *)
Theorem failed_connection_test_stops_the_start
    (run_main_loop : WaterReminderScheduler.t -> M unit) (now : Z)
    (bot_token chat_id : string) (w ws : World) :
  bot_token <> EmptyString ->
  chat_id <> EmptyString ->
  TelegramNotifier.test_connection
    (TelegramNotifier.__init__ bot_token chat_id)
    (extend before_connection_test w)
  = (Return false, ws) ->
  WaterReminderApp.start run_main_loop now
    (Config.mk (Some bot_token) (Some chat_id)) w
  = (Return tt, extend (connection_failed_logs ++ [stopped_log]) ws)
  /\ jobs ws = jobs w.
Proof.
  intros T C Test. split.
  - rewrite (start_after_return run_main_loop now _ w
               (extend connection_failed_logs ws)).
    + now rewrite extend_extend.
    + rewrite attempt_start_connects by assumption. now rewrite Test.
  - pose proof (send_message_jobs (TelegramNotifier.__init__ bot_token chat_id)
                  test_message
                  TelegramNotifier.DEFAULT_MAX_RETRIES
                  (extend before_connection_test w)) as J.
    unfold TelegramNotifier.test_connection in Test.
    fold test_message in Test. rewrite Test in J. exact J.
Qed.

Lemma failed_connection_test_stops_the_start_witness :
  WaterReminderApp.start (fun _ => ret tt) 0
    (Config.mk (Some "123:abc"%string) (Some "42"%string))
    (fresh (fun _ => status_only 401))
  = (Return tt,
     extend (connection_failed_logs ++ [stopped_log])
       (snd (TelegramNotifier.test_connection bot
               (extend before_connection_test
                  (fresh (fun _ => status_only 401)))))).
Proof.
  apply (failed_connection_test_stops_the_start (fun _ => ret tt) 0
           "123:abc" "42" (fresh (fun _ => status_only 401))).
  - discriminate.
  - discriminate.
  - reflexivity.
Defined.

Lemma attempt_start_escapes
    (run_main_loop : WaterReminderScheduler.t -> M unit) (now : Z)
    (bot_token chat_id : string) (w w' : World) (e : Exn) :
  bot_token <> EmptyString ->
  chat_id <> EmptyString ->
  TelegramNotifier.iteration (TelegramNotifier.__init__ bot_token chat_id)
    test_message TelegramNotifier.DEFAULT_MAX_RETRIES 0
    (extend before_connection_test w)
  = (Raise e, w') ->
  WaterReminderApp.attempt_start run_main_loop now
    (Config.mk (Some bot_token) (Some chat_id)) w
  = (Raise e, w').
Proof.
  intros T C It.
  rewrite attempt_start_connects by assumption.
  unfold TelegramNotifier.test_connection, TelegramNotifier.send_message.
  change (Z.to_nat TelegramNotifier.DEFAULT_MAX_RETRIES) with 3%nat.
  cbn [TelegramNotifier.loop]. unfold bind at 1.
  fold test_message. now rewrite It.
Qed.

(** A rate-limited answer to the connection test whose [Retry-After] header
    is no integer for [int], or is a negative integer that [time.sleep]
    refuses as such, makes [int] or [time.sleep] raise [ValueError] inside
    [send_message]; [start] catches it in the clause meant for
    [Config.validate] and reports it as a configuration error.  The bot
    stops after that one request, without constructing the scheduler. *)
Theorem malformed_retry_after_reported_as_configuration_error
    (run_main_loop : WaterReminderScheduler.t -> M unit) (now : Z)
    (bot_token chat_id : string) (w : World) (r : Response) :
  bot_token <> EmptyString ->
  chat_id <> EmptyString ->
  next_result w = Responds r ->
  status_code r = 429 ->
  match retry_after_secs r with
  | Some secs => -9223372036 <= secs < 0
  | None => True
  end ->
  exists text,
    WaterReminderApp.start run_main_loop now
      (Config.mk (Some bot_token) (Some chat_id)) w
    = (Return tt,
       extend
         (before_connection_test
            ++ [the_post (TelegramNotifier.__init__ bot_token chat_id)
                  test_message;
                rate_limit_log r]
            ++ configuration_error_logs (ValueError text)
            ++ [stopped_log])
         w).
Proof.
  intros T C H S Bad.
  set (w1 := extend before_connection_test w).
  assert (H1 : next_result w1 = Responds r).
  { unfold w1. now rewrite next_result_after_logs. }
  assert (It : exists text,
             TelegramNotifier.iteration
               (TelegramNotifier.__init__ bot_token chat_id) test_message
               TelegramNotifier.DEFAULT_MAX_RETRIES 0 w1
             = (Raise (ValueError text),
                extend [the_post (TelegramNotifier.__init__ bot_token chat_id)
                          test_message;
                        rate_limit_log r] w1)).
  { destruct (retry_after_secs r) as [secs|] eqn:R.
    - eexists.
      apply (iteration_wait_refused _ _ _ 0 w1 r secs _ H1 S R).
      now apply refused_negative.
    - now apply iteration_hint_refused. }
  destruct It as (text & It). exists text.
  rewrite (start_after_value_error run_main_loop now _ w _ text
             (attempt_start_escapes run_main_loop now _ _ w _ _ T C It)).
  unfold w1. now rewrite !extend_extend.
Qed.

Lemma malformed_retry_after_reported_as_configuration_error_witness :
  exists text,
    WaterReminderApp.start (fun _ => ret tt) 0
      (Config.mk (Some "123:abc"%string) (Some "42"%string))
      (fresh (fun _ => rate_limited "Wed, 21 Oct 2015 07:28:00 GMT"))
    = (Return tt,
       extend
         (before_connection_test
            ++ [the_post (TelegramNotifier.__init__ "123:abc" "42")
                  test_message;
                rate_limit_log
                  (mkResponse 429
                     (Some "Wed, 21 Oct 2015 07:28:00 GMT"%string) NotJSON)]
            ++ configuration_error_logs (ValueError text)
            ++ [stopped_log])
         (fresh (fun _ => rate_limited "Wed, 21 Oct 2015 07:28:00 GMT"))).
Proof.
  apply (malformed_retry_after_reported_as_configuration_error
           (fun _ => ret tt) 0 "123:abc" "42"
           (fresh (fun _ => rate_limited "Wed, 21 Oct 2015 07:28:00 GMT"))
           (mkResponse 429 (Some "Wed, 21 Oct 2015 07:28:00 GMT"%string) NotJSON)).
  - discriminate.
  - discriminate.
  - reflexivity.
  - reflexivity.
  - exact I.
Defined.

(** A rate-limited answer to the connection test whose [Retry-After] header
    is an integer beyond 9223372036 seconds either way makes [time.sleep]
    raise [OverflowError] inside [send_message]; [start] catches it in its
    last clause, logs it as an unexpected error and stops after that one
    request, without constructing the scheduler. *)
Theorem oversized_retry_after_reported_as_unexpected_error
    (run_main_loop : WaterReminderScheduler.t -> M unit) (now : Z)
    (bot_token chat_id : string) (w : World) (r : Response) (secs : Z) :
  bot_token <> EmptyString ->
  chat_id <> EmptyString ->
  next_result w = Responds r ->
  status_code r = 429 ->
  retry_after_secs r = Some secs ->
  secs < -9223372036 \/ 9223372036 < secs ->
  WaterReminderApp.start run_main_loop now
    (Config.mk (Some bot_token) (Some chat_id)) w
  = (Return tt,
     extend
       (before_connection_test
          ++ [the_post (TelegramNotifier.__init__ bot_token chat_id)
                test_message;
              rate_limit_log r]
          ++ [unexpected_error_log
                (OverflowError "timestamp too large to convert to C _PyTime_t");
              stopped_log])
       w).
Proof.
  intros T C H S R Big.
  set (w1 := extend before_connection_test w).
  assert (H1 : next_result w1 = Responds r).
  { unfold w1. now rewrite next_result_after_logs. }
  pose proof (iteration_wait_refused
                (TelegramNotifier.__init__ bot_token chat_id) test_message
                TelegramNotifier.DEFAULT_MAX_RETRIES 0 w1 r secs _ H1 S R
                (refused_overflow (reading w1) secs Big)) as It.
  rewrite (start_after_other_error run_main_loop now _ w _ _
             (attempt_start_escapes run_main_loop now _ _ w _ _ T C It))
    by discriminate.
  unfold w1. now rewrite !extend_extend.
Qed.

Lemma oversized_retry_after_reported_as_unexpected_error_witness :
  WaterReminderApp.start (fun _ => ret tt) 0
    (Config.mk (Some "123:abc"%string) (Some "42"%string))
    (fresh (fun _ => rate_limited "10000000000"))
  = (Return tt,
     extend
       (before_connection_test
          ++ [the_post (TelegramNotifier.__init__ "123:abc" "42") test_message;
              rate_limit_log
                (mkResponse 429 (Some "10000000000"%string) NotJSON)]
          ++ [unexpected_error_log
                (OverflowError "timestamp too large to convert to C _PyTime_t");
              stopped_log])
       (fresh (fun _ => rate_limited "10000000000"))).
Proof.
  apply (oversized_retry_after_reported_as_unexpected_error (fun _ => ret tt) 0
           "123:abc" "42" (fresh (fun _ => rate_limited "10000000000"))
           (mkResponse 429 (Some "10000000000"%string) NotJSON) 10000000000).
  - discriminate.
  - discriminate.
  - reflexivity.
  - reflexivity.
  - reflexivity.
  - right. lia.
Defined.

(** When the connection test returns [True], the main loop is entered, and
    only then: the five jobs of the table have been appended to the
    registry, and the last record logged before the loop is the description
    that [get_next_reminder] gives of that registry. *)
Theorem main_loop_starts_after_setup
    (run_main_loop : WaterReminderScheduler.t -> M unit) (now : Z)
    (bot_token chat_id : string) (w ws : World) :
  bot_token <> EmptyString ->
  chat_id <> EmptyString ->
  TelegramNotifier.test_connection
    (TelegramNotifier.__init__ bot_token chat_id)
    (extend before_connection_test w)
  = (Return true, ws) ->
  let scheduler :=
    WaterReminderScheduler.mk (TelegramNotifier.__init__ bot_token chat_id) in
  let table := WaterReminderScheduler.REMINDER_MESSAGES in
  exists description loop_world,
    WaterReminderApp.attempt_start run_main_loop now
      (Config.mk (Some bot_token) (Some chat_id)) w
    = run_main_loop scheduler loop_world
    /\ jobs loop_world = jobs w ++ flat_map (job_of_entry now) table
    /\ trace loop_world
       = trace ws ++ connection_succeeded_logs ++ map scheduled_log table
         ++ [Log INFO [Str description]]
    /\ net loop_world = net w
    /\ fst (WaterReminderScheduler.get_next_reminder scheduler loop_world)
       = Return description.
Proof.
  intros T C Test. cbv zeta.
  pose proof (send_message_jobs (TelegramNotifier.__init__ bot_token chat_id)
                test_message TelegramNotifier.DEFAULT_MAX_RETRIES
                (extend before_connection_test w)) as J.
  destruct (loop_spec (TelegramNotifier.__init__ bot_token chat_id)
              test_message TelegramNotifier.DEFAULT_MAX_RETRIES
              (Z.to_nat TelegramNotifier.DEFAULT_MAX_RETRIES) 0
              (extend before_connection_test w)) as (N & _).
  unfold TelegramNotifier.test_connection in Test. fold test_message in Test.
  unfold TelegramNotifier.send_message in J.
  unfold TelegramNotifier.send_message in Test.
  rewrite Test in J, N. cbn [snd extend jobs net] in J, N.
  rewrite attempt_start_connects by assumption.
  unfold TelegramNotifier.test_connection, TelegramNotifier.send_message.
  fold test_message. rewrite Test.
  unfold bind at 1. unfold WaterReminderApp._initialize_scheduler.
  unfold bind at 1. unfold log at 1. cbn [unprintable existsb orb].
  unfold bind at 1. rewrite scheduler_init_spec.
  unfold bind at 1.
  unfold WaterReminderScheduler.get_next_reminder, bind, Schedule.next_run.
  cbn [jobs emit extend trace net]. rewrite J, N.
  destruct (Schedule.earliest _) as [instant|] eqn:E;
    unfold ret, log; cbn [unprintable existsb orb];
    cbn [emit trace net jobs]; eexists; eexists;
    (split; [reflexivity|]); unfold emit; cbn [jobs trace net]; rewrite E;
    repeat split; now rewrite <- !app_assoc.
Qed.

Lemma main_loop_starts_after_setup_witness :
  exists description loop_world,
    WaterReminderApp.attempt_start (fun _ => ret tt) 7200
      (Config.mk (Some "123:abc"%string) (Some "42"%string))
      (fresh (fun _ => answer 200 [("ok"%string, JBool true)]))
    = ret tt loop_world
    /\ jobs loop_world
       = [] ++ flat_map (job_of_entry 7200)
                 WaterReminderScheduler.REMINDER_MESSAGES
    /\ fst (WaterReminderScheduler.get_next_reminder
              (WaterReminderScheduler.mk bot) loop_world)
       = Return description.
Proof.
  destruct (main_loop_starts_after_setup (fun _ => ret tt) 7200
              "123:abc" "42"
              (fresh (fun _ => answer 200 [("ok"%string, JBool true)]))
              _ ltac:(discriminate) ltac:(discriminate) eq_refl)
    as (description & loop_world & A & J & _ & _ & G).
  exists description, loop_world. auto.
Defined.

(* ===================================================================== *)
(** ** The exceptions that leave [send_message] *)
(* ===================================================================== *)

Lemma escape_kind (self : TelegramNotifier.t) (message : string)
    (max_retries attempt : Z) (w : World) (e : Exn) (evs : list Event) :
  Escape self message max_retries attempt w e evs ->
  match e with
  | ValueError _ | AttributeError _ | OverflowError _ | OSError _
  | RecursionError _ => True
  | _ => False
  end.
Proof.
  intros [r text H S R | r secs e' H S R P | r v text H E B T | r e' H E B
          | C U | evs' A Q Sl L U | evs' e' A Q Sl L B]; try exact I.
  - now destruct P.
  - now destruct e'.
  - now destruct B.
Qed.

(** An exception that leaves a loop of at least one iteration leaves one of
    its iterations: the loop comes to its end after the attempt of index 34
    at the latest, and the final record can then be built. *)
Lemma loop_raises (self : TelegramNotifier.t) (message : string)
    (max_retries : Z) (n : nat) :
  forall (attempt : Z) (w w' : World) (e : Exn),
    0 <= attempt <= 34 ->
    attempt + Z.of_nat (S n) = max_retries ->
    TelegramNotifier.loop self message max_retries (S n) attempt w
    = (Raise e, w') ->
    exists evs attempt',
      TelegramNotifier.iteration self message max_retries attempt'
        (extend evs w)
      = (Raise e, w').
Proof.
  induction n as [|n IH]; intros attempt w w' e A An L;
    rewrite loop_step in L;
    pose proof (iteration_step self message max_retries attempt w) as St;
    destruct (TelegramNotifier.iteration self message max_retries attempt w)
      as [res1 w1] eqn:It;
    cbn [fst snd] in St;
    destruct (step_frame _ _ _ _ _ _ _ St) as (evs1 & -> & _);
    destruct res1 as [[b|]|e1]; try discriminate L;
    try (injection L as <- <-; exists [], attempt; now rewrite extend_nil).
  - rewrite loop_exhausted in L.
    rewrite (printable_sleep max_retries) in L by lia. discriminate L.
  - pose proof (iteration_continues _ _ _ _ _ _ It ltac:(lia)) as P.
    apply small_power in P.
    destruct (IH (attempt + 1) _ _ _ ltac:(lia) ltac:(lia) L)
      as (evs & attempt' & It').
    exists ((the_post self message :: evs1) ++ evs), attempt'.
    now rewrite <- extend_extend.
Qed.

(** When an exception leaves [send_message], either it leaves the iteration
    of some attempt, begun in a world that extends the world of the call, in
    one of the ways of [Escape], or there is no attempt at all.  In an
    iteration, [int] or [time.sleep] refuses the [Retry-After] hint of a
    rate-limited response, the body of a response without error status
    decodes to a value that is no object or makes [json.loads] raise, the
    record of a failed attempt or of a back-off sleep cannot be built
    because an integer of it has more than 4300 digits, or [time.sleep]
    refuses a back-off sleep.  Without an attempt, [max_retries] is a
    negative integer of more than 4300 digits, which the final record
    cannot show, and nothing has happened.  The exception is a
    [ValueError], an [AttributeError], an [OverflowError], an [OSError] or a
    [RecursionError]: no exception of the requests library escapes. *)
Theorem exceptions_that_leave_send_message
    (self : TelegramNotifier.t) (message : string) (max_retries : Z)
    (w w' : World) (e : Exn) :
  TelegramNotifier.send_message self message max_retries w = (Raise e, w') ->
  ((exists evs attempt cause,
       Escape self message max_retries attempt (extend evs w) e cause
       /\ w' = extend (the_post self message :: cause) (extend evs w))
   \/ (max_retries <= - 10 ^ 4300
       /\ e = ValueError "Exceeds the limit (4300 digits) for integer string conversion; use sys.set_int_max_str_digits() to increase the limit"
       /\ w' = w))
  /\ match e with
     | ValueError _ | AttributeError _ | OverflowError _ | OSError _
     | RecursionError _ => True
     | _ => False
     end.
Proof.
  unfold TelegramNotifier.send_message. intro L.
  destruct (Z.to_nat max_retries) as [|n] eqn:N.
  - rewrite loop_exhausted in L.
    destruct (Z.leb_spec UNPRINTABLE (Z.abs max_retries)) as [U|U];
      [|discriminate L].
    injection L as <- <-. split; [right|exact I].
    rewrite <- UNPRINTABLE_spec. repeat split. lia.
  - destruct (loop_raises self message max_retries n 0 w w' e
                ltac:(lia) ltac:(lia) L) as (evs & attempt & It).
    pose proof (iteration_step self message max_retries attempt (extend evs w))
      as St.
    rewrite It in St. cbn [fst snd] in St.
    inversion St as [ | | | | e' cause Esc ]; subst.
    split.
    + left. now exists evs, attempt, cause.
    + exact (escape_kind _ _ _ _ _ _ _ Esc).
Qed.

Lemma exceptions_that_leave_send_message_witness :
  exists evs attempt cause,
    Escape bot "hi" 3 attempt
      (extend evs
         (fresh (fun _ => Responds (mkResponse 429 (Some "10000000000"%string)
                                      NotJSON))))
      (OverflowError "timestamp too large to convert to C _PyTime_t") cause.
Proof.
  destruct (exceptions_that_leave_send_message bot "hi" 3
              (fresh (fun _ => Responds (mkResponse 429
                                           (Some "10000000000"%string)
                                           NotJSON)))
              (extend [the_post bot "hi";
                       rate_limit_log (mkResponse 429
                                         (Some "10000000000"%string) NotJSON)]
                 (fresh (fun _ =>
                           Responds (mkResponse 429
                                       (Some "10000000000"%string) NotJSON))))
              (OverflowError "timestamp too large to convert to C _PyTime_t")
              eq_refl)
    as ([(evs & attempt & cause & Esc & _)|(_ & Other & _)] & _).
  - now exists evs, attempt, cause.
  - discriminate Other.
Defined.

(* ===================================================================== *)
(** ** One reminder *)
(* ===================================================================== *)

Lemma loop_issues_a_request (self : TelegramNotifier.t) (message : string)
    (max_retries : Z) (n : nat) (attempt : Z) (w : World) :
  (posts (trace w)
   < posts (trace (snd (TelegramNotifier.loop self message max_retries (S n)
                          attempt w))))%nat.
Proof.
  cbn [TelegramNotifier.loop]. unfold bind.
  pose proof (iteration_step self message max_retries attempt w) as St.
  destruct (TelegramNotifier.iteration self message max_retries attempt w)
    as [res1 w2].
  cbn [fst snd] in St.
  destruct (step_frame _ _ _ _ _ _ _ St) as (evs1 & -> & Q).
  assert (P : (posts (trace w)
               < posts (trace (extend (the_post self message :: evs1) w)))%nat).
  { rewrite posts_extend, posts_the_post. lia. }
  destruct res1 as [[b|]|e]; cbn [ret fst snd]; try exact P.
  pose proof (loop_spec self message max_retries n (attempt + 1)
                (extend (the_post self message :: evs1) w)) as Spec.
  cbv zeta in Spec. destruct Spec as (_ & B & _). lia.
Qed.

(** Whatever the network does, one reminder issues at least one and at most
    three requests, each of them the request of its own message; its first
    record announces the reminder, and when it returns its last record
    reports the delivery.  The registry of jobs is left as it was. *)
Theorem reminder_uses_at_most_three_requests
    (self : WaterReminderScheduler.t) (message time_str : string) (w : World) :
  let res := WaterReminderScheduler._send_reminder self message time_str w in
  (posts (trace w) < posts (trace (snd res)) <= posts (trace w) + 3)%nat
  /\ jobs (snd res) = jobs w
  /\ net (snd res) = net w
  /\ (exists evs,
        trace (snd res)
        = trace w
          ++ Log INFO [Lit "Sending reminder scheduled for "; Str time_str]
          :: evs
        /\ forall e, In e evs -> is_post e = true ->
             e = the_post (WaterReminderScheduler.notifier self) message)
  /\ (fst res = Return tt ->
      exists delivered evs,
        trace (snd res) = evs ++ [reminder_log delivered time_str]).
Proof.
  cbv zeta.
  set (announce := Log INFO [Lit "Sending reminder scheduled for ";
                             Str time_str]).
  set (w1 := extend [announce] w).
  pose proof (loop_spec (WaterReminderScheduler.notifier self) message
                TelegramNotifier.DEFAULT_MAX_RETRIES 3 0 w1) as Spec.
  cbv zeta in Spec. destruct Spec as (N & B & _).
  destruct (loop_requests (WaterReminderScheduler.notifier self) message
              TelegramNotifier.DEFAULT_MAX_RETRIES 3 0 w1) as (evs & T & Only).
  pose proof (loop_jobs (WaterReminderScheduler.notifier self) message
                TelegramNotifier.DEFAULT_MAX_RETRIES 3 0 w1) as J.
  pose proof (loop_issues_a_request (WaterReminderScheduler.notifier self)
                message TelegramNotifier.DEFAULT_MAX_RETRIES 2 0 w1) as First.
  assert (P1 : posts (trace w1) = posts (trace w)).
  { unfold w1. rewrite posts_extend. change (posts [announce]) with 0%nat. lia. }
  unfold WaterReminderScheduler._send_reminder, bind, log. cbn [unprintable existsb orb].
  fold announce. rewrite emit_extend. fold w1.
  unfold TelegramNotifier.send_message.
  change (Z.to_nat TelegramNotifier.DEFAULT_MAX_RETRIES) with 3%nat.
  destruct (TelegramNotifier.loop (WaterReminderScheduler.notifier self) message
              TelegramNotifier.DEFAULT_MAX_RETRIES 3 0 w1) as [[[|]|e] ws];
    cbn [fst snd] in *; unfold emit; cbn [fst snd trace jobs net];
    rewrite ?posts_app;
    match goal with
    | |- context [posts [?x]] => change (posts [x]) with 0%nat
    | _ => idtac
    end.
  - refine (conj _ (conj J (conj N (conj _ _)))); [lia| |].
    + eexists. rewrite T. unfold w1. cbn [extend trace].
      rewrite <- !app_assoc. split; [reflexivity|].
      intros e I P. apply in_app_or in I as [I|[<-|[]]];
        [now apply Only|discriminate P].
    + intros _. exists true. now eexists.
  - refine (conj _ (conj J (conj N (conj _ _)))); [lia| |].
    + eexists. rewrite T. unfold w1. cbn [extend trace].
      rewrite <- !app_assoc. split; [reflexivity|].
      intros e I P. apply in_app_or in I as [I|[<-|[]]];
        [now apply Only|discriminate P].
    + intros _. exists false. now eexists.
  - refine (conj _ (conj J (conj N (conj _ _)))); [lia| |discriminate].
    exists evs. rewrite T. unfold w1. cbn [extend trace].
    rewrite <- !app_assoc. split; [reflexivity|exact Only].
Qed.

(* ===================================================================== *)
(** ** A [Retry-After] header in seconds *)
(* ===================================================================== *)

Lemma digit_of_range (c : ascii) (d : Z) :
  digit_of c = Some d -> 0 <= d <= 9 /\ is_space c = false.
Proof.
  unfold digit_of, is_space.
  destruct (48 <=? nat_of_ascii c)%nat eqn:L; [|discriminate].
  destruct (nat_of_ascii c <=? 57)%nat eqn:U; [|discriminate].
  apply Nat.leb_le in L. apply Nat.leb_le in U.
  cbn [andb]. intro D. injection D as <-. split; [lia|].
  replace (nat_of_ascii c <=? 13)%nat with false
    by (symmetry; apply Nat.leb_gt; lia).
  replace (nat_of_ascii c =? 32)%nat with false
    by (symmetry; apply Nat.eqb_neq; lia).
  replace (nat_of_ascii c =? 133)%nat with false
    by (symmetry; apply Nat.eqb_neq; lia).
  replace (nat_of_ascii c =? 160)%nat with false
    by (symmetry; apply Nat.eqb_neq; lia).
  now rewrite Bool.andb_false_r.
Qed.

Lemma lstrip_digits (cs : list ascii) :
  match cs with
  | c :: _ => digit_of c <> None
  | [] => True
  end ->
  lstrip cs = cs.
Proof.
  destruct cs as [|c rest]; [reflexivity|]. intro D. cbn.
  destruct (digit_of c) as [d|] eqn:E; [|now contradiction D].
  now rewrite (proj2 (digit_of_range c d E)).
Qed.

Lemma strip_digits (cs : list ascii) :
  Forall (fun c => digit_of c <> None) cs -> strip cs = cs.
Proof.
  intro F. unfold strip.
  rewrite (lstrip_digits cs) by (destruct F; [exact I|assumption]).
  apply Forall_rev in F.
  rewrite (lstrip_digits (rev cs)) by (destruct F; [exact I|assumption]).
  apply rev_involutive.
Qed.

Lemma digits_of_digits (cs : list ascii) :
  Forall (fun c => digit_of c <> None) cs ->
  forall (acc : Z) (after_digit : bool),
    0 <= acc ->
    cs <> [] \/ after_digit = true ->
    exists v, digits acc after_digit cs = Some v /\ 0 <= v.
Proof.
  induction 1 as [|c rest D F IH]; intros acc after_digit A Ne.
  - destruct Ne as [Ne | ->]; [now contradiction Ne|]. now exists acc.
  - cbn [digits]. destruct (digit_of c) as [d|] eqn:E; [|now contradiction D].
    apply IH; [|now right].
    pose proof (proj1 (digit_of_range c d E)). lia.
Qed.

Lemma run_of_digits (cs : list ascii) :
  Forall (fun c => digit_of c <> None) cs ->
  forall after_digit,
    cs <> [] \/ after_digit = true ->
    run_ok after_digit cs = true /\ run_digits cs = List.length cs.
Proof.
  induction 1 as [|c rest D F IH]; intros after_digit Ne.
  - destruct Ne as [Ne | ->]; [now contradiction Ne|]. now split.
  - cbn [run_ok run_digits List.length].
    destruct (digit_of c) as [d|]; [|now contradiction D].
    destruct (IH true (or_intror eq_refl)) as [Ok Count].
    now rewrite Ok, Count.
Qed.

Lemma length_chars (text : string) :
  List.length (chars text) = String.length text.
Proof. induction text as [|c rest IH]; cbn; [reflexivity|now rewrite IH]. Qed.

Lemma int_literal_of_digits (text : string) :
  text <> EmptyString ->
  Forall (fun c => digit_of c <> None) (chars text) ->
  int_literal text
  = if (MAX_STR_DIGITS <? String.length text)%nat
    then TooLong (String.length text)
    else match digits 0 false (chars text) with
         | Some z => IsInteger z
         | None => Invalid
         end.
Proof.
  intros Ne F. unfold int_literal. rewrite strip_digits by exact F.
  destruct (run_of_digits (chars text) F false) as [Ok Count].
  { left. destruct text; [now contradiction Ne|discriminate]. }
  rewrite length_chars in Count.
  destruct (chars text) as [|c rest] eqn:Cs.
  { destruct text; [now contradiction Ne|discriminate]. }
  assert (D : digit_of c <> None) by (now inversion F).
  destruct (Ascii.eqb_spec c "-") as [->|_]; [now contradiction D|].
  destruct (Ascii.eqb_spec c "+") as [->|_]; [now contradiction D|].
  unfold unsigned. now rewrite Ok, Count.
Qed.

(** A rate-limited response whose [Retry-After] header is a non-empty run
    of decimal digits.  A run of more than 4300 digits makes [int] raise
    [ValueError].  A shorter one is read as a number of seconds that is not
    negative: the handler sleeps that long and asks the loop to continue
    when the clock leaves room for the sleep, and [time.sleep] raises
    [OverflowError] when the number exceeds 9223372036. *)
Theorem decimal_retry_after_outcomes
    (self : TelegramNotifier.t) (error : Exn) (r : Response)
    (attempt max_retries : Z) (w : World) (text : string) :
  status_code r = 429 ->
  retry_after_header r = Some text ->
  text <> EmptyString ->
  Forall (fun c => digit_of c <> None) (chars text) ->
  let handled :=
    TelegramNotifier._handle_http_error self error r attempt max_retries w in
  ((4300 < String.length text)%nat ->
   exists msg,
     handled = (Raise (ValueError msg), extend [rate_limit_log r] w))
  /\ ((String.length text <= 4300)%nat ->
      exists secs,
        0 <= secs
        /\ int_of_string text = Some secs
        /\ (room w secs ->
            handled = (Return true, extend [rate_limit_log r; Sleep secs] w))
        /\ (9223372036 < secs ->
            handled
            = (Raise (OverflowError
                        "timestamp too large to convert to C _PyTime_t"),
               extend [rate_limit_log r] w))).
Proof.
  intros S H Ne F. cbv zeta.
  pose proof (int_literal_of_digits text Ne F) as Lit.
  change 4300%nat with MAX_STR_DIGITS. split.
  - intro Long. apply handle_bad_hint; [exact S|].
    unfold retry_after_secs, int_of_string. rewrite H, Lit.
    now replace (MAX_STR_DIGITS <? String.length text)%nat with true
      by (symmetry; apply Nat.ltb_lt; exact Long).
  - intro Short.
    replace (MAX_STR_DIGITS <? String.length text)%nat with false in Lit
      by (symmetry; apply Nat.ltb_ge; exact Short).
    destruct (digits_of_digits (chars text) F 0 false ltac:(lia)) as (secs & D & P).
    { left. destruct text; [now contradiction Ne|discriminate]. }
    rewrite D in Lit.
    assert (R : retry_after_secs r = Some secs).
    { unfold retry_after_secs, int_of_string. now rewrite H, Lit. }
    exists secs. refine (conj P (conj _ (conj _ _))).
    + unfold int_of_string. now rewrite Lit.
    + intro Room. rewrite (handle_hint self max_retries error attempt w r secs S R).
      unfold reading.
      now rewrite (room_lets_sleep w secs secs _ Room) by lia.
    + intro Big. rewrite (handle_hint self max_retries error attempt w r secs S R).
      now rewrite refused_overflow by (now right).
Qed.

Lemma decimal_retry_after_outcomes_witness :
  (exists secs,
      0 <= secs
      /\ int_of_string "30" = Some secs
      /\ TelegramNotifier._handle_http_error bot
           (HTTPError "HTTP error status"
              (mkResponse 429 (Some "30"%string) NotJSON))
           (mkResponse 429 (Some "30"%string) NotJSON) 0 3
           (fresh (fun _ => rate_limited "30"))
         = (Return true,
            extend [rate_limit_log (mkResponse 429 (Some "30"%string) NotJSON);
                    Sleep secs]
              (fresh (fun _ => rate_limited "30"))))
  /\
  TelegramNotifier._handle_http_error bot
    (HTTPError "HTTP error status"
       (mkResponse 429 (Some "99999999999999999999"%string) NotJSON))
    (mkResponse 429 (Some "99999999999999999999"%string) NotJSON) 0 3
    (fresh (fun _ => rate_limited "99999999999999999999"))
  = (Raise (OverflowError "timestamp too large to convert to C _PyTime_t"),
     extend [rate_limit_log
               (mkResponse 429 (Some "99999999999999999999"%string) NotJSON)]
       (fresh (fun _ => rate_limited "99999999999999999999"))).
Proof.
  split.
  - destruct (proj2 (decimal_retry_after_outcomes bot
                       (HTTPError "HTTP error status"
                          (mkResponse 429 (Some "30"%string) NotJSON))
                       (mkResponse 429 (Some "30"%string) NotJSON) 0 3
                       (fresh (fun _ => rate_limited "30")) "30"
                       eq_refl eq_refl ltac:(discriminate)
                       ltac:(repeat constructor; discriminate))
                ltac:(vm_compute; lia))
      as (secs & P & I & Ok & _).
    exists secs. refine (conj P (conj I _)). apply Ok.
    assert (E : secs = 30) by (vm_compute in I; congruence).
    subst secs.
    split; [vm_compute; discriminate|intro k; vm_compute; discriminate].
  - destruct (proj2 (decimal_retry_after_outcomes bot
                       (HTTPError "HTTP error status"
                          (mkResponse 429 (Some "99999999999999999999"%string)
                             NotJSON))
                       (mkResponse 429 (Some "99999999999999999999"%string)
                          NotJSON) 0 3
                       (fresh (fun _ => rate_limited "99999999999999999999"))
                       "99999999999999999999"
                       eq_refl eq_refl ltac:(discriminate)
                       ltac:(repeat constructor; discriminate))
                ltac:(vm_compute; lia))
      as (secs & P & I & _ & Big).
    apply Big.
    assert (E : secs = 99999999999999999999) by (vm_compute in I; congruence).
    subst secs. lia.
Defined.
